(** * youtube-playlist-info: a shallow embedding of [main.py]

    The program lists the videos of a YouTube playlist, turns every video
    into an [Item] (title, link, duration) and prints the items as a
    Markdown table or as CSV.  This file embeds the pure part of [main.py]
    together with the pieces of the Python runtime it relies on
    ([re.search] for the three patterns, [int], [datetime.timedelta],
    [str.format]) and the remote API as an explicit handler state. *)

From Stdlib Require Import String Ascii List ZArith NArith Lia Bool
  Permutation.
Import ListNotations.

Set Implicit Arguments.

(** ** The Python runtime, as far as [main.py] uses it *)

Module Py.

(** A Python [str] is a sequence of Unicode code points. *)
Definition char := N.
Definition str := list char.

(** An ASCII literal as a [str]. *)
Definition lit (s : string) : str :=
  map N_of_ascii (list_ascii_of_string s).

Definition str_eqb (a b : str) : bool :=
  if list_eq_dec N.eq_dec a b then true else false.

(** Exceptions that the modelled code can raise. *)
Inductive exn :=
| OverflowError
| ValueError
| HttpError.

Inductive result (A : Type) :=
| Ok (a : A)
| Raise (e : exn).
Arguments Ok {A} a.
Arguments Raise {A} e.

Definition bind {A B} (r : result A) (k : A -> result B) : result B :=
  match r with
  | Ok a => k a
  | Raise e => Raise e
  end.

(** Code points of the digit zero of every decimal-digit block (general
    category Nd, Unicode 14.0): the ten digits of a block are consecutive,
    in increasing value. *)
Definition decimal_zeros : list N :=
  [48; 1632; 1776; 1984; 2406; 2534; 2662; 2790; 2918; 3046; 3174; 3302;
   3430; 3558; 3664; 3792; 3872; 4160; 4240; 6112; 6160; 6470; 6608; 6784;
   6800; 6992; 7088; 7232; 7248; 42528; 43216; 43264; 43472; 43504; 43600;
   44016; 65296; 66720; 68912; 69734; 69872; 69942; 70096; 70384; 70736;
   70864; 71248; 71360; 71472; 71904; 72016; 72784; 73040; 73120; 92768;
   92864; 93008; 120782; 120792; 120802; 120812; 120822; 123200; 123632;
   125264; 130032]%N.

Fixpoint decimal_in (zeros : list N) (c : char) : option N :=
  match zeros with
  | [] => None
  | z :: zeros' =>
      if ((z <=? c) && (c <? z + 10))%N then Some (c - z)%N
      else decimal_in zeros' c
  end.

(** [Py_UNICODE_TODECIMAL]: the value of a decimal digit, [None] (-1 in C)
    for every other character. *)
Definition Py_UNICODE_TODECIMAL (c : char) : option N :=
  decimal_in decimal_zeros c.

(** [Py_UNICODE_ISDECIMAL]: what [\d] matches in a [str] pattern. *)
Definition Py_UNICODE_ISDECIMAL (c : char) : bool :=
  match Py_UNICODE_TODECIMAL c with
  | Some _ => true
  | None => false
  end.

Arguments Py_UNICODE_TODECIMAL : simpl never.
Arguments Py_UNICODE_ISDECIMAL : simpl never.

(** [sys.int_info]: conversions of at most [str_digits_check_threshold]
    digits are never checked; longer ones are refused when they exceed
    [max_str_digits] (0 disables the check). *)
Definition str_digits_check_threshold : nat := 640.
Definition max_str_digits : nat := 4300.

Definition digits_refused (digits : nat) : bool :=
  (str_digits_check_threshold <? digits)%nat
  && (0 <? max_str_digits)%nat
  && (max_str_digits <? digits)%nat.

(** Base-ten accumulation of [int]; [None] at a character that is not a
    decimal digit. *)
Fixpoint int_accum (acc : Z) (s : str) : option Z :=
  match s with
  | [] => Some acc
  | c :: s' =>
      match Py_UNICODE_TODECIMAL c with
      | Some v => int_accum (10 * acc + Z.of_N v) s'
      | None => None
      end
  end.

(** [int(s)] for a [str] without sign, blanks or underscores, which is all
    that the group of [(\d+)] can hold. *)
Definition int (s : str) : result Z :=
  match s with
  | [] => Raise ValueError
  | _ =>
      if digits_refused (length s) then Raise ValueError
      else match int_accum 0 s with
           | Some z => Ok z
           | None => Raise ValueError
           end
  end.

(** Decimal digits of a natural number, most significant first. *)
Fixpoint digits_fuel (fuel : nat) (n : N) (acc : str) : str :=
  let acc' := (48 + n mod 10)%N :: acc in
  match fuel with
  | O => acc'
  | S fuel' =>
      if (n / 10 =? 0)%N then acc' else digits_fuel fuel' (n / 10)%N acc'
  end.

Definition digits (n : N) : str :=
  digits_fuel (N.to_nat (N.log2 n)) n [].

Definition zfill (width : nat) (s : str) : str :=
  repeat 48%N (width - length s) ++ s.

(** ["%0<width>d" % z]; the sign counts in the width.  Width 0 is ["%d"],
    which is also [str(z)]. *)
Definition format_0d (width : nat) (z : Z) : str :=
  if (z <? 0)%Z then 45%N :: zfill (width - 1) (digits (Z.abs_N z))
  else zfill width (digits (Z.abs_N z)).

Definition format_d (z : Z) : str := format_0d 0 z.

(** [sep.join(xs)] *)
Fixpoint join (sep : str) (xs : list str) : str :=
  match xs with
  | [] => []
  | [x] => x
  | x :: xs' => x ++ sep ++ join sep xs'
  end.

(** Truth value of an optional [str]: [None] and the empty string are
    false. *)
Definition truthy (s : option str) : bool :=
  match s with
  | Some (_ :: _) => true
  | _ => false
  end.

(** [print(x)] on a standard output modelled as the text written so far. *)
Definition print (stdout x : str) : str := stdout ++ x ++ [10%N].

End Py.

Import Py.

Arguments Py_UNICODE_TODECIMAL : simpl never.
Arguments Py_UNICODE_ISDECIMAL : simpl never.

Notation "x <- c1 ;; c2" := (Py.bind c1 (fun x => c2))
  (at level 61, c1 at next level, right associativity).

(** ** [re]: the three patterns of the form [(\d+)X] *)

Module Re.

(** [re.compile(r"(\d+)X")] for a literal character [X]. *)
Record Pattern := { designator : char }.

(** A match object: [m.start()] and [m.group(1)]. *)
Record Match := { start : nat; group1 : str }.

(** The rest of [\d+] after its first digit, followed by the literal.
    The repetition is greedy: a further digit is consumed first, and the
    literal is tried at the current character only when that fails. *)
Fixpoint more_digits_then (X : char) (s : str) : option str :=
  match s with
  | [] => None
  | c :: s' =>
      let stop := if (c =? X)%N then Some [] else None in
      if Py_UNICODE_ISDECIMAL c then
        match more_digits_then X s' with
        | Some g => Some (c :: g)
        | None => stop
        end
      else stop
  end.

(** [pattern.match]: the pattern at the very start of [s]. *)
Definition match_here (p : Pattern) (s : str) : option str :=
  match s with
  | [] => None
  | c :: s' =>
      if Py_UNICODE_ISDECIMAL c then
        option_map (cons c) (more_digits_then (designator p) s')
      else None
  end.

Fixpoint search_from (p : Pattern) (pos : nat) (s : str) : option Match :=
  match match_here p s with
  | Some g => Some {| start := pos; group1 := g |}
  | None =>
      match s with
      | [] => None
      | _ :: s' => search_from p (S pos) s'
      end
  end.

(** [pattern.search(s)]: the match at the leftmost position that has
    one. *)
Definition search (p : Pattern) (s : str) : option Match :=
  search_from p 0 s.

End Re.

(** ** [datetime.timedelta] on integer arguments *)

Module Timedelta.

(** Normalised representation: [0 <= seconds < 86400],
    [0 <= microseconds < 1000000], [|days| <= 999999999]. *)
Record timedelta := { days : Z; seconds : Z; microseconds : Z }.

Definition max_days : Z := 999999999.

Local Open Scope Z_scope.

(** Normalisation of a triple, with the range check on the days. *)
Definition normalize (d s us : Z) : result timedelta :=
  let total_us := (d * 86400 + s) * 1000000 + us in
  let d' := total_us / 86400000000 in
  let r := total_us mod 86400000000 in
  if Z.abs d' <=? max_days
  then Ok {| days := d'; seconds := r / 1000000;
             microseconds := r mod 1000000 |}
  else Raise OverflowError.

(** [timedelta(days, seconds, microseconds, milliseconds, minutes, hours,
    weeks)] *)
Definition new (days seconds microseconds milliseconds minutes hours weeks
                : Z) : result timedelta :=
  normalize (days + 7 * weeks)
            (seconds + 60 * minutes + 3600 * hours)
            (microseconds + 1000 * milliseconds).

(** [a + b] *)
Definition add (a b : timedelta) : result timedelta :=
  normalize (days a + days b) (seconds a + seconds b)
            (microseconds a + microseconds b).

(** [sum(xs, start)] *)
Fixpoint sum (xs : list timedelta) (start : timedelta) : result timedelta :=
  match xs with
  | [] => Ok start
  | x :: xs' => r <- add start x ;; sum xs' r
  end.

(** [str(t)] *)
Definition to_str (t : timedelta) : str :=
  let mm := seconds t / 60 in
  let ss := seconds t mod 60 in
  let hh := mm / 60 in
  let mm := mm mod 60 in
  let s := format_d hh ++ lit ":" ++ format_0d 2 mm ++ lit ":"
           ++ format_0d 2 ss in
  let s := if days t =? 0 then s
           else format_d (days t) ++ lit " day"
                ++ (if Z.abs (days t) =? 1 then [] else lit "s")
                ++ lit ", " ++ s in
  if microseconds t =? 0 then s
  else s ++ lit "." ++ format_0d 6 (microseconds t).

(** The elapsed time, in microseconds. *)
Definition total_microseconds (t : timedelta) : Z :=
  (days t * 86400 + seconds t) * 1000000 + microseconds t.

(** [timedelta.min] and [timedelta.max], in microseconds, and the largest
    number of whole seconds of a [timedelta]. *)
Definition min_microseconds : Z := -86399999913600000000.
Definition max_microseconds : Z := 86399999999999999999.
Definition max_seconds : Z := 86399999999999.

(** The [timedelta] of a number of whole seconds. *)
Definition from_seconds (n : Z) : timedelta :=
  {| days := n / 86400; seconds := n mod 86400; microseconds := 0 |}.

(** The class invariant of a [timedelta] object. *)
Definition valid (t : timedelta) : Prop :=
  Z.abs (days t) <= max_days /\ 0 <= seconds t < 86400
  /\ 0 <= microseconds t < 1000000.

End Timedelta.

Import Timedelta.

(** ** The YouTube Data API, as [main.py] sees it *)

Module Api.

(** An element of the [items] of a [playlistItems] response. *)
Record PlaylistItemContentDetails := { videoId : str }.
Record PlaylistItem := { pl_contentDetails : PlaylistItemContentDetails }.

(** [pl_response["items"]] and [pl_response.get("nextPageToken")] *)
Record PlaylistItemsResponse :=
  { pl_items : list PlaylistItem; nextPageToken : option str }.

(** An element of the [items] of a [videos] response. *)
Record Snippet := { title : str }.
Record ContentDetails := { duration : str }.
Record Video := { snippet : Snippet; contentDetails : ContentDetails }.

Record VideosResponse := { v_items : list Video }.

(** Keyword arguments of [handler.playlistItems().list(...)]. *)
Record PlaylistItemsRequest :=
  { pl_part : str; playlistId : str; maxResults : Z;
    pageToken : option str }.

(** Keyword arguments of [handler.videos().list(...)]. *)
Record VideosRequest := { v_part : str; id : str }.

(** The handler returned by [googleapiclient.discovery.build]: executing a
    request answers or raises, and may change the state of the remote
    side. *)
Class Handler (H : Type) :=
  { playlistItems_list_execute :
      H -> PlaylistItemsRequest -> result (PlaylistItemsResponse * H);
    videos_list_execute :
      H -> VideosRequest -> result (VideosResponse * H) }.

End Api.

(** ** [main.py] *)

Record Item := { title : str; url : str; duration : timedelta }.

Definition hours_pattern : Re.Pattern := {| Re.designator := 72%N |}.
Definition minutes_pattern : Re.Pattern := {| Re.designator := 77%N |}.
Definition seconds_pattern : Re.Pattern := {| Re.designator := 83%N |}.

(** [int(m.group(1)) if m else 0] *)
Definition group_or_zero (m : option Re.Match) : result Z :=
  match m with
  | Some m => int (Re.group1 m)
  | None => Ok 0%Z
  end.

Definition _extract_duration (item : Api.Video) : result timedelta :=
  let duration := Api.duration (Api.contentDetails item) in
  let hours := Re.search hours_pattern duration in
  let minutes := Re.search minutes_pattern duration in
  let seconds := Re.search seconds_pattern duration in
  hours <- group_or_zero hours ;;
  minutes <- group_or_zero minutes ;;
  seconds <- group_or_zero seconds ;;
  Timedelta.new 0 seconds 0 0 minutes hours 0.

Definition _extract_title (item : Api.Video) : str :=
  Api.title (Api.snippet item).

Definition _create_link (video_id : str) : str :=
  lit "https://www.youtube.com/watch?v=" ++ video_id.

Definition get_total_duration (items : list Item) : result timedelta :=
  start <- Timedelta.new 0 0 0 0 0 0 0 ;;
  Timedelta.sum (map duration items) start.

Definition create_item (item : Api.Video) (video_id : str) : result Item :=
  let title := _extract_title item in
  let url := _create_link video_id in
  duration <- _extract_duration item ;;
  Ok {| title := title; url := url; duration := duration |}.

(** The row that the loop of [create_markdown_table] adds for an item:
    [f"| [{item.title}]({item.url}) | {item.duration} |\n"]. *)
Definition markdown_row (item : Item) : str :=
  lit "| [" ++ title item ++ lit "](" ++ url item ++ lit ") | "
  ++ Timedelta.to_str (duration item) ++ lit " |" ++ [10%N].

Definition create_markdown_table (items : list Item) : str :=
  let table := lit "| Title | Duration |" ++ [10%N] in
  let table := table ++ lit "| :--- | :---: |" ++ [10%N] in
  fold_left (fun table item => table ++ markdown_row item) items table.

Section Fetch.

Context {H : Type} `{Api.Handler H}.

(** The [while True] loop of [get_video_ids]; [fuel] bounds the number of
    requests, [None] is a run that needs more. *)
Fixpoint get_video_ids_loop (fuel : nat) (handler : H) (playlist_id : str)
    (video_ids : list str) (nextPageToken : option str)
    : option (result (list str * H)) :=
  match fuel with
  | O => None
  | S fuel' =>
      let pl_request :=
        {| Api.pl_part := lit "contentDetails";
           Api.playlistId := playlist_id;
           Api.maxResults := 50;
           Api.pageToken := nextPageToken |} in
      match Api.playlistItems_list_execute handler pl_request with
      | Raise e => Some (Raise e)
      | Ok (pl_response, handler) =>
          let items := Api.pl_items pl_response in
          let video_ids :=
            video_ids
            ++ map (fun item => Api.videoId (Api.pl_contentDetails item))
                   items in
          let nextPageToken := Api.nextPageToken pl_response in
          if negb (truthy nextPageToken) then Some (Ok (video_ids, handler))
          else get_video_ids_loop fuel' handler playlist_id video_ids
                                  nextPageToken
      end
  end.

Definition get_video_ids (fuel : nat) (handler : H) (playlist_id : str)
    : option (result (list str * H)) :=
  get_video_ids_loop fuel handler playlist_id [] None.

(** [main] passes a list, which is joined with commas. *)
Definition get_video_details (handler : H) (video_ids : list str)
    : result (list Api.Video * H) :=
  let video_ids := join (lit ",") video_ids in
  let vid_request :=
    {| Api.v_part := lit "snippet,contentDetails";
       Api.id := video_ids |} in
  r <- Api.videos_list_execute handler vid_request ;;
  Ok (Api.v_items (fst r), snd r).

End Fetch.

(** The list comprehension of [main]: [create_item] on every pair of
    [zip(video_details, video_ids)], left to right. *)
Fixpoint create_items (pairs : list (Api.Video * str)) : result (list Item) :=
  match pairs with
  | [] => Ok []
  | (item, video_id) :: pairs' =>
      i <- create_item item video_id ;;
      rest <- create_items pairs' ;;
      Ok (i :: rest)
  end.

Definition assemble (video_details : list Api.Video) (video_ids : list str)
    : result (list Item) :=
  create_items (combine video_details video_ids).

(** [if args.include_total_duration: items.append(Item(...))] *)
Definition append_total (include_total_duration : bool) (items : list Item)
    : result (list Item) :=
  if include_total_duration then
    total <- get_total_duration items ;;
    Ok (items ++ [{| title := lit "Total Duration"; url := [];
                     duration := total |}])
  else Ok items.

(** The line that [main] prints for an item in CSV mode: the title between
    double quotes, then the url and [str(item.duration)] after commas. *)
Definition csv_row (item : Item) : str :=
  [34%N] ++ title item ++ [34%N] ++ lit "," ++ url item ++ lit ","
  ++ Timedelta.to_str (duration item).

(** The output stage of [main]: what is printed for [args.format]. *)
Definition print_items (format : str) (items : list Item) (stdout : str)
    : str :=
  if str_eqb format (lit "md") then
    print stdout (create_markdown_table items)
  else if str_eqb format (lit "csv") then
    fold_left (fun stdout item => print stdout (csv_row item)) items
              (print stdout (lit "title,url,duration"))
  else stdout.

Record Args :=
  { api_key : str; playlist : str; format : str;
    include_total_duration : bool }.

(** [main], from the handler that [get_api_handler(args.api_key)] builds:
    the text printed and the final state of the remote side. *)
Definition main {H : Type} `{Api.Handler H} (fuel : nat) (args : Args)
    (handler : H) : option (result (str * H)) :=
  match get_video_ids fuel handler (playlist args) with
  | None => None
  | Some (Raise e) => Some (Raise e)
  | Some (Ok (video_ids, handler)) =>
      Some (r <- get_video_details handler video_ids ;;
            items <- assemble (fst r) video_ids ;;
            items <- append_total (include_total_duration args) items ;;
            Ok (print_items (format args) items [], snd r))
  end.

(** * Vocabulary of the properties *)

Definition ascii_digit (c : char) : Prop := (48 <= c <= 57)%N.

Definition decimal (c : char) : Prop := Py_UNICODE_ISDECIMAL c = true.

(** A place where [(\d+)X] can match: digits [g], one at least, that start
    at position [pos] of [s] and are followed by the designator. *)
Definition occurrence (p : Re.Pattern) (s : str) (pos : nat) (g : str)
    : Prop :=
  g <> [] /\ Forall decimal g /\
  exists pre post, s = pre ++ g ++ Re.designator p :: post /\ length pre = pos.

Definition sum_microseconds (xs : list timedelta) : Z :=
  fold_right (fun x acc => total_microseconds x + acc)%Z 0%Z xs.

(** The match that [search] must return: an occurrence of the pattern with
    no occurrence to its left, or nothing when the string has none. *)
Definition leftmost (p : Re.Pattern) (s : str) (m : option Re.Match)
    : Prop :=
  match m with
  | Some m =>
      occurrence p s (Re.start m) (Re.group1 m)
      /\ forall pos g, occurrence p s pos g -> (Re.start m <= pos)%nat
  | None => forall pos g, ~ occurrence p s pos g
  end.

(** The group that a search captures, if any. *)
Definition found (p : Re.Pattern) (s : str) : option str :=
  option_map Re.group1 (Re.search p s).

(** A video resource with the two fields that [main.py] reads. *)
Definition video (title duration : str) : Api.Video :=
  {| Api.snippet := {| Api.title := title |};
     Api.contentDetails := {| Api.duration := duration |} |}.

(** The simplified duration grammar: after a prefix such as [PT], an
    optional number of hours followed by [H], an optional number of minutes
    followed by [M] and an optional number of seconds followed by [S]. *)
Definition field (n : option N) (X : char) : str :=
  match n with
  | Some n => digits n ++ [X]
  | None => []
  end.

Definition duration_string (pre : str) (h m s : option N) : str :=
  pre ++ field h 72%N ++ field m 77%N ++ field s 83%N.

Definition amount (n : option N) : Z :=
  match n with
  | Some n => Z.of_N n
  | None => 0%Z
  end.

(** The number that a group of decimal digits [0]..[9] denotes. *)
Definition decimal_value (g : str) : Z :=
  fold_left (fun acc c => (10 * acc + (Z.of_N c - 48))%Z) g 0%Z.

(** An optional integer of the duration grammar, as it is written: digits
    [0]..[9], one at least, leading zeros allowed, and no more of them than
    [int] converts ([max_str_digits], 4300). *)
Definition numeral (g : option str) : Prop :=
  match g with
  | Some g =>
      g <> [] /\ Forall ascii_digit g /\ (length g <= max_str_digits)%nat
  | None => True
  end.

Definition numeral_field (g : option str) (X : char) : str :=
  match g with
  | Some g => g ++ [X]
  | None => []
  end.

(** The strings of the simplified duration grammar, with the integers as
    they are written: after a prefix such as [PT], an optional integer
    followed by [H], an optional integer followed by [M] and an optional
    integer followed by [S]. *)
Definition grammar_string (pre : str) (h m s : option str) : str :=
  pre ++ numeral_field h 72%N ++ numeral_field m 77%N
  ++ numeral_field s 83%N.

(** What an optional integer counts for: its value, or 0 when absent. *)
Definition numeral_amount (g : option str) : Z :=
  match g with
  | Some g => decimal_value g
  | None => 0%Z
  end.

(** What [int] makes of a captured group, and whether its length check lets
    the group through. *)
Definition group_value (m : option Re.Match) : Z :=
  match m with
  | Some m =>
      match int_accum 0 (Re.group1 m) with
      | Some v => v
      | None => 0%Z
      end
  | None => 0%Z
  end.

Definition group_accepted (m : option Re.Match) : bool :=
  match m with
  | Some m => negb (digits_refused (length (Re.group1 m)))
  | None => true
  end.

Definition groups_accepted (d : str) : bool :=
  group_accepted (Re.search hours_pattern d)
  && group_accepted (Re.search minutes_pattern d)
  && group_accepted (Re.search seconds_pattern d).

(** The seconds that the three captured groups of a string add up to. *)
Definition hms_seconds (d : str) : Z :=
  (3600 * group_value (Re.search hours_pattern d)
   + 60 * group_value (Re.search minutes_pattern d)
   + group_value (Re.search seconds_pattern d))%Z.

(** The request of [get_video_ids] for the page behind a token. *)
Definition page_request (playlist_id : str) (token : option str)
    : Api.PlaylistItemsRequest :=
  {| Api.pl_part := lit "contentDetails";
     Api.playlistId := playlist_id;
     Api.maxResults := 50;
     Api.pageToken := token |}.

Definition page_ids (page : Api.PlaylistItemsResponse) : list str :=
  map (fun item => Api.videoId (Api.pl_contentDetails item))
      (Api.pl_items page).

(** [serves playlist_id h token pages h']: asked for the page behind
    [token], and then for the page behind the token of each answer, the
    remote side in state [h] answers with [pages], one after the other, and
    is left in state [h']; every page but the last carries a continuation
    token, the last one carries none.  A token is a string that Python
    takes for true, that is, a non-empty one. *)
Inductive serves {H : Type} `{Api.Handler H} (playlist_id : str)
    : H -> option str -> list Api.PlaylistItemsResponse -> H -> Prop :=
| serves_last : forall h token page h',
    Api.playlistItems_list_execute h (page_request playlist_id token)
    = Ok (page, h') ->
    truthy (Api.nextPageToken page) = false ->
    serves playlist_id h token [page] h'
| serves_next : forall h token page h' pages h'',
    Api.playlistItems_list_execute h (page_request playlist_id token)
    = Ok (page, h') ->
    truthy (Api.nextPageToken page) = true ->
    serves playlist_id h' (Api.nextPageToken page) pages h'' ->
    serves playlist_id h token (page :: pages) h''.

(** A remote side that answers the successive [playlistItems] requests
    with a fixed sequence of pages, fails once they are used up, answers
    every [videos] request with a fixed catalogue and keeps the page
    requests it received. *)
Record Scripted :=
  { pages_left : list Api.PlaylistItemsResponse;
    catalogue : list Api.Video;
    requests_seen : list Api.PlaylistItemsRequest }.

#[export] Instance scripted_handler : Api.Handler Scripted :=
  {| Api.playlistItems_list_execute h request :=
       match pages_left h with
       | [] => Raise HttpError
       | page :: rest =>
           Ok (page, {| pages_left := rest;
                        catalogue := catalogue h;
                        requests_seen := requests_seen h ++ [request] |})
       end;
     Api.videos_list_execute h request :=
       Ok ({| Api.v_items := catalogue h |}, h) |}.

(** A sequence of pages as the remote side delivers them: every page but
    the last carries a continuation token, the last one carries none. *)
Fixpoint chained (pages : list Api.PlaylistItemsResponse) : bool :=
  match pages with
  | [] => false
  | [last] => negb (truthy (Api.nextPageToken last))
  | p :: rest => truthy (Api.nextPageToken p) && chained rest
  end.

(** The requests that fetch a sequence of pages: the first with [token],
    each further one with the token of the page before. *)
Fixpoint page_requests (playlist_id : str) (token : option str)
    (pages : list Api.PlaylistItemsResponse)
    : list Api.PlaylistItemsRequest :=
  match pages with
  | [] => []
  | p :: rest =>
      page_request playlist_id token
      :: page_requests playlist_id (Api.nextPageToken p) rest
  end.

Definition page (ids : list string) (token : option string)
    : Api.PlaylistItemsResponse :=
  {| Api.pl_items :=
       map (fun i => {| Api.pl_contentDetails := {| Api.videoId := lit i |} |})
           ids;
     Api.nextPageToken := option_map lit token |}.

(** The scenario of the specification: two pages, [v1, v2] with a
    continuation token and [v3] without, and three videos of one hour,
    thirty minutes and forty-five seconds. *)
Definition scenario_pages : list Api.PlaylistItemsResponse :=
  [page ["v1"; "v2"]%string (Some "CAIQAA"%string);
   page ["v3"]%string None].

Definition scenario_videos : list Api.Video :=
  [video (lit "T1") (lit "PT1H"); video (lit "T2") (lit "PT30M");
   video (lit "T3") (lit "PT45S")].

Definition scenario_remote : Scripted :=
  {| pages_left := scenario_pages; catalogue := scenario_videos;
     requests_seen := [] |}.

(** Lines of text, each ended by a newline. *)
Definition lines (ls : list string) : str :=
  concat (map (fun l => lit l ++ [10%N]) ls).

Definition scenario_args (fmt : string) (total : bool) : Args :=
  {| api_key := lit "key"; playlist := lit "PL1"; format := lit fmt;
     include_total_duration := total |}.

(** The state in which the scenario leaves the remote side. *)
Definition scenario_remote_after : Scripted :=
  {| pages_left := []; catalogue := scenario_videos;
     requests_seen := [page_request (lit "PL1") None;
                       page_request (lit "PL1") (Some (lit "CAIQAA"))] |}.

(** [s.split(sep)] for a separator of one character. *)
Fixpoint split_on (sep : char) (s : str) : list str :=
  match s with
  | [] => [[]]
  | c :: s' =>
      if (c =? sep)%N then [] :: split_on sep s'
      else match split_on sep s' with
           | f :: fs => (c :: f) :: fs
           | [] => [[c]]
           end
  end.

(** The reader that the round-trip property of the specification speaks of
    (it is not part of [main.py]): a rendered duration field read back as
    [H:MM:SS], three decimal numbers separated by colons, as a number of
    seconds. *)
Definition spec_parse_hms (fld : str) : option Z :=
  match split_on 58%N fld with
  | [h; m; s] =>
      match int h, int m, int s with
      | Ok h, Ok m, Ok s => Some (h * 3600 + m * 60 + s)%Z
      | _, _, _ => None
      end
  | _ => None
  end.

(** [fails_after playlist_id h token pages e]: asked for the page behind
    [token] and then for the page behind the token of each answer, the
    remote side in state [h] answers with [pages], each with a continuation
    token, and then fails the next request with [e]. *)
Inductive fails_after {H : Type} `{Api.Handler H} (playlist_id : str)
    : H -> option str -> list Api.PlaylistItemsResponse -> exn -> Prop :=
| fails_now : forall h token e,
    Api.playlistItems_list_execute h (page_request playlist_id token)
    = Raise e ->
    fails_after playlist_id h token [] e
| fails_later : forall h token page h' pages e,
    Api.playlistItems_list_execute h (page_request playlist_id token)
    = Ok (page, h') ->
    truthy (Api.nextPageToken page) = true ->
    fails_after playlist_id h' (Api.nextPageToken page) pages e ->
    fails_after playlist_id h token (page :: pages) e.

(** A remote side that answers every [playlistItems] request with the same
    page and refuses [videos] requests. *)
Record Repeating := { repeated : Api.PlaylistItemsResponse }.

#[export] Instance repeating_handler : Api.Handler Repeating :=
  {| Api.playlistItems_list_execute h request := Ok (repeated h, h);
     Api.videos_list_execute h request := Raise HttpError |}.

(** A remote side that keeps the [videos] requests it receives and answers
    each of them with a fixed list of videos; it has no playlist pages. *)
Record Recording :=
  { recorded_videos : list Api.Video;
    recorded_requests : list Api.VideosRequest }.

#[export] Instance recording_handler : Api.Handler Recording :=
  {| Api.playlistItems_list_execute h request := Raise HttpError;
     Api.videos_list_execute h request :=
       Ok ({| Api.v_items := recorded_videos h |},
           {| recorded_videos := recorded_videos h;
              recorded_requests := recorded_requests h ++ [request] |}) |}.

(** The number of line ends in a text. *)
Definition newlines (s : str) : nat := count_occ N.eq_dec s 10%N.

(** A text without line end. *)
Definition one_line (s : str) : Prop := Forall (fun c => c <> 10%N) s.

(** * Properties *)

(** ** Decimal digits, [int] and ["%d"] *)

Lemma todecimal_ascii c :
  ascii_digit c -> Py_UNICODE_TODECIMAL c = Some (c - 48)%N.
Proof.
  unfold ascii_digit, Py_UNICODE_TODECIMAL, decimal_zeros. intros Hc.
  cbn [decimal_in].
  destruct (48 <=? c)%N eqn:E1; [|apply N.leb_gt in E1; lia].
  destruct (c <? 48 + 10)%N eqn:E2; [reflexivity|apply N.ltb_ge in E2; lia].
Qed.

Lemma isdecimal_ascii c : ascii_digit c -> Py_UNICODE_ISDECIMAL c = true.
Proof.
  intros Hc. unfold Py_UNICODE_ISDECIMAL. now rewrite todecimal_ascii.
Qed.

Lemma ten_nonzero : (10 <> 0)%N.
Proof. discriminate. Qed.

Lemma mod10_digit n : ascii_digit (48 + n mod 10)%N.
Proof.
  unfold ascii_digit. pose proof (N.mod_lt n 10 ten_nonzero) as Hr.
  remember (n mod 10)%N as r. lia.
Qed.

Lemma div10_mod10 n : (10 * Z.of_N (n / 10) + Z.of_N (n mod 10) = Z.of_N n)%Z.
Proof.
  pose proof (N.div_mod n 10 ten_nonzero) as E.
  remember (n mod 10)%N as r. remember (n / 10)%N as q. lia.
Qed.

Lemma int_accum_app s1 s2 acc :
  int_accum acc (s1 ++ s2) =
  match int_accum acc s1 with
  | Some v => int_accum v s2
  | None => None
  end.
Proof.
  revert acc. induction s1 as [|c s1 IH]; intros acc; cbn [int_accum app];
    [reflexivity|].
  destruct (Py_UNICODE_TODECIMAL c); [apply IH|reflexivity].
Qed.

Lemma int_accum_nonneg s : forall acc v,
  (0 <= acc)%Z -> int_accum acc s = Some v -> (acc <= v)%Z.
Proof.
  induction s as [|c s IH]; cbn [int_accum]; intros acc v Hacc.
  - intros [= <-]. lia.
  - destruct (Py_UNICODE_TODECIMAL c) as [d|]; [|discriminate].
    intros Hv. apply IH in Hv; lia.
Qed.

Lemma int_accum_decimal s : forall acc,
  Forall (fun c => Py_UNICODE_ISDECIMAL c = true) s ->
  exists v, int_accum acc s = Some v.
Proof.
  induction s as [|c s IH]; cbn [int_accum]; intros acc Hs.
  - now exists acc.
  - inversion Hs as [|? ? Hc Hs']; subst. unfold Py_UNICODE_ISDECIMAL in Hc.
    destruct (Py_UNICODE_TODECIMAL c); [now apply IH|discriminate].
Qed.

Lemma digits_fuel_app fuel : forall n acc,
  digits_fuel fuel n acc = digits_fuel fuel n [] ++ acc.
Proof.
  induction fuel as [|fuel IH]; intros n acc; cbn; [reflexivity|].
  destruct (n / 10 =? 0)%N; [reflexivity|].
  rewrite IH. rewrite (IH _ [_]). now rewrite <- app_assoc.
Qed.

Lemma digits_fuel_ascii fuel : forall n acc,
  Forall ascii_digit acc -> Forall ascii_digit (digits_fuel fuel n acc).
Proof.
  induction fuel as [|fuel IH]; intros n acc Hacc; cbn [digits_fuel].
  - constructor; auto using mod10_digit.
  - destruct (n / 10 =? 0)%N; [constructor; auto using mod10_digit|].
    apply IH. constructor; auto using mod10_digit.
Qed.

Lemma digits_fuel_length fuel : forall n acc,
  (length (digits_fuel fuel n acc) <= S fuel + length acc)%nat.
Proof.
  induction fuel as [|fuel IH]; intros n acc; cbn [digits_fuel length];
    [lia|].
  destruct (n / 10 =? 0)%N; cbn [length]; [lia|].
  specialize (IH (n / 10)%N ((48 + n mod 10)%N :: acc)).
  cbn [length] in IH. lia.
Qed.

Lemma digits_fuel_value fuel : forall n,
  (n < 2 ^ N.of_nat (S fuel))%N ->
  int_accum 0 (digits_fuel fuel n []) = Some (Z.of_N n).
Proof.
  assert (Hd : forall n acc,
             int_accum acc [(48 + n mod 10)%N]
             = Some (10 * acc + Z.of_N (n mod 10))%Z).
  { intros n acc. cbn [int_accum].
    rewrite (todecimal_ascii (mod10_digit n)).
    do 3 f_equal. remember (n mod 10)%N as r. lia. }
  induction fuel as [|fuel IH]; intros n Hn.
  - cbn [digits_fuel]. rewrite Hd. f_equal.
    change (2 ^ N.of_nat 1)%N with 2%N in Hn.
    rewrite N.mod_small by lia. lia.
  - cbn [digits_fuel]. destruct (n / 10 =? 0)%N eqn:E.
    + rewrite Hd. f_equal. apply N.eqb_eq in E.
      pose proof (div10_mod10 n) as D. rewrite E in D. lia.
    + rewrite digits_fuel_app, int_accum_app, IH.
      * rewrite Hd. f_equal. apply div10_mod10.
      * rewrite Nat2N.inj_succ, N.pow_succ_r' in Hn.
        apply N.Div0.div_lt_upper_bound.
        lia.
Qed.

Lemma digits_ascii n : Forall ascii_digit (digits n).
Proof. apply digits_fuel_ascii. constructor. Qed.

Lemma digits_nonempty n : digits n <> [].
Proof.
  unfold digits. destruct (N.to_nat (N.log2 n)); cbn; [discriminate|].
  destruct (n / 10 =? 0)%N; [discriminate|].
  rewrite digits_fuel_app. intros E. apply app_eq_nil in E.
  destruct E; discriminate.
Qed.

Lemma digits_length n : (length (digits n) <= S (N.to_nat (N.log2 n)))%nat.
Proof.
  unfold digits.
  pose proof (digits_fuel_length (N.to_nat (N.log2 n)) n []) as L.
  cbn in L. lia.
Qed.

Lemma digits_value n : int_accum 0 (digits n) = Some (Z.of_N n).
Proof.
  apply digits_fuel_value. rewrite Nat2N.inj_succ, N2Nat.id.
  destruct (N.eq_dec n 0) as [->|Hn]; [reflexivity|].
  apply N.log2_spec. lia.
Qed.

(** ** [re]: what [search] finds *)

Lemma ascii_digits_decimal g : Forall ascii_digit g -> Forall decimal g.
Proof.
  intros Hg. eapply Forall_impl; [|exact Hg].
  intros c Hc. now apply isdecimal_ascii.
Qed.

Lemma more_digits_then_sound X s : forall g,
  Re.more_digits_then X s = Some g ->
  Forall decimal g /\ exists post, s = g ++ X :: post.
Proof.
  induction s as [|c s IH]; cbn [Re.more_digits_then]; intros g;
    [discriminate|].
  assert (Hstop : (if (c =? X)%N then Some [] else None) = Some g ->
                  Forall decimal g /\ exists post, c :: s = g ++ X :: post).
  { destruct (c =? X)%N eqn:E; [|discriminate].
    apply N.eqb_eq in E. subst c. intros [= <-].
    split; [constructor|now exists s]. }
  destruct (Py_UNICODE_ISDECIMAL c) eqn:Hc; [|exact Hstop].
  destruct (Re.more_digits_then X s) as [g'|]; [|exact Hstop].
  intros [= <-]. destruct (IH g' eq_refl) as [Hg' [post ->]].
  split; [now constructor|now exists post].
Qed.

Lemma match_here_sound p s g :
  Re.match_here p s = Some g -> occurrence p s 0 g.
Proof.
  destruct s as [|c s]; cbn [Re.match_here]; [discriminate|].
  destruct (Py_UNICODE_ISDECIMAL c) eqn:Hc; [|discriminate].
  destruct (Re.more_digits_then (Re.designator p) s) as [g'|] eqn:E;
    [|discriminate].
  intros [= <-]. apply more_digits_then_sound in E.
  destruct E as [Hg' [post ->]].
  split; [discriminate|]. split; [now constructor|].
  now exists [], post.
Qed.

Section Designator.

Variable p : Re.Pattern.
Hypothesis designator_not_decimal :
  Py_UNICODE_ISDECIMAL (Re.designator p) = false.

Lemma more_digits_then_run g post :
  Forall decimal g ->
  Re.more_digits_then (Re.designator p) (g ++ Re.designator p :: post)
  = Some g.
Proof.
  induction 1 as [|c g Hc Hg IH]; cbn [app Re.more_digits_then].
  - now rewrite N.eqb_refl, designator_not_decimal.
  - rewrite Hc, IH. reflexivity.
Qed.

Lemma more_digits_then_other g Y post :
  Forall decimal g -> Py_UNICODE_ISDECIMAL Y = false ->
  Y <> Re.designator p ->
  Re.more_digits_then (Re.designator p) (g ++ Y :: post) = None.
Proof.
  intros Hg HY HYX.
  induction Hg as [|c g Hc Hg IH]; cbn [app Re.more_digits_then].
  - rewrite HY. now apply N.eqb_neq in HYX as ->.
  - rewrite Hc, IH.
    destruct (c =? Re.designator p)%N eqn:E; [|reflexivity].
    apply N.eqb_eq in E. subst c. unfold decimal in Hc. congruence.
Qed.

Lemma match_here_complete s g :
  occurrence p s 0 g -> Re.match_here p s = Some g.
Proof.
  intros [Hne [Hg [pre [post [-> Hpre]]]]].
  apply length_zero_iff_nil in Hpre. subst pre. cbn [app].
  destruct Hg as [|c g Hc Hg]; [contradiction|].
  cbn [app Re.match_here]. rewrite Hc.
  now rewrite more_digits_then_run.
Qed.

Lemma occurrence_cons c s pos g :
  occurrence p (c :: s) (S pos) g -> occurrence p s pos g.
Proof.
  intros [Hne [Hg [pre [post [E Hpre]]]]].
  destruct pre as [|c' pre]; [discriminate|].
  cbn in E, Hpre. injection E as -> ->. injection Hpre as Hpre.
  split; [exact Hne|]. split; [exact Hg|]. now exists pre, post.
Qed.

Lemma occurrence_nil pos g : ~ occurrence p [] pos g.
Proof.
  intros [_ [_ [pre [post [E _]]]]].
  destruct pre; [destruct g|]; discriminate.
Qed.

(** What [search] returns is an occurrence of the pattern. *)
Lemma search_from_sound s : forall base m,
  Re.search_from p base s = Some m ->
  exists pos, Re.start m = (base + pos)%nat
              /\ occurrence p s pos (Re.group1 m).
Proof.
  induction s as [|c s IH]; intros base m; cbn [Re.search_from].
  - cbn. discriminate.
  - destruct (Re.match_here p (c :: s)) as [g|] eqn:E.
    + intros [= <-]. exists 0%nat. cbn [Re.start Re.group1].
      split; [lia|now apply match_here_sound].
    + intros Hm. destruct (IH _ _ Hm) as [pos [Hs Ho]].
      exists (S pos). split; [lia|].
      destruct Ho as [Hne [Hg [pre [post [-> Hpre]]]]].
      split; [exact Hne|]. split; [exact Hg|].
      exists (c :: pre), post. cbn. now rewrite Hpre.
Qed.

(** No occurrence starts to the left of the one [search] returns. *)
Lemma search_from_leftmost s : forall base m pos g,
  Re.search_from p base s = Some m -> occurrence p s pos g ->
  (Re.start m <= base + pos)%nat.
Proof.
  induction s as [|c s IH]; intros base m pos g; cbn [Re.search_from].
  - cbn. discriminate.
  - destruct (Re.match_here p (c :: s)) as [g0|] eqn:E.
    + intros [= <-] _. cbn. lia.
    + intros Hm Ho. destruct pos as [|pos].
      * apply match_here_complete in Ho. congruence.
      * apply occurrence_cons in Ho.
        specialize (IH _ _ _ _ Hm Ho). lia.
Qed.

(** [search] fails only on a string without any occurrence. *)
Lemma search_from_none s : forall base pos g,
  Re.search_from p base s = None -> ~ occurrence p s pos g.
Proof.
  induction s as [|c s IH]; intros base pos g; cbn [Re.search_from].
  - intros _. apply occurrence_nil.
  - destruct (Re.match_here p (c :: s)) as [g0|] eqn:E; [discriminate|].
    intros Hm Ho. destruct pos as [|pos].
    + apply match_here_complete in Ho. congruence.
    + apply occurrence_cons in Ho. exact (IH _ _ _ Hm Ho).
Qed.

End Designator.


(** ** [timedelta]: normalisation, range and addition *)

Lemma normalize_in_range d s us :
  let T := ((d * 86400 + s) * 1000000 + us)%Z in
  (min_microseconds <= T <= max_microseconds)%Z ->
  normalize d s us
  = Ok {| days := T / 86400000000;
          seconds := T mod 86400000000 / 1000000;
          microseconds := T mod 86400000000 mod 1000000 |}.
Proof.
  intros T HT. unfold min_microseconds, max_microseconds in HT.
  unfold normalize. fold T.
  replace (Z.abs (T / 86400000000) <=? max_days)%Z with true; [reflexivity|].
  symmetry. apply Z.leb_le. unfold max_days.
  apply Z.abs_le. split.
  - apply Z.div_le_lower_bound; lia.
  - assert (T / 86400000000 < 1000000000)%Z; [|lia].
    apply Z.div_lt_upper_bound; lia.
Qed.

Lemma normalize_out_of_range d s us :
  let T := ((d * 86400 + s) * 1000000 + us)%Z in
  (T < min_microseconds \/ max_microseconds < T)%Z ->
  normalize d s us = Raise OverflowError.
Proof.
  intros T HT. unfold min_microseconds, max_microseconds in HT.
  unfold normalize. fold T.
  replace (Z.abs (T / 86400000000) <=? max_days)%Z with false; [reflexivity|].
  symmetry. apply Z.leb_gt. unfold max_days.
  pose proof (Z.div_mod T 86400000000 ltac:(discriminate)) as E.
  pose proof (Z.mod_pos_bound T 86400000000 ltac:(reflexivity)) as B.
  remember (T / 86400000000)%Z as q. remember (T mod 86400000000)%Z as r.
  lia.
Qed.

Lemma normalize_spec d s us t :
  normalize d s us = Ok t ->
  total_microseconds t = ((d * 86400 + s) * 1000000 + us)%Z /\ valid t.
Proof.
  unfold normalize.
  set (T := ((d * 86400 + s) * 1000000 + us)%Z).
  destruct (Z.abs (T / 86400000000) <=? max_days)%Z eqn:E; [|discriminate].
  intros [= <-]. apply Z.leb_le in E.
  unfold total_microseconds, valid. cbn [days seconds microseconds].
  pose proof (Z.div_mod T 86400000000 ltac:(discriminate)) as E1.
  pose proof (Z.mod_pos_bound T 86400000000 ltac:(reflexivity)) as B1.
  remember (T / 86400000000)%Z as q. remember (T mod 86400000000)%Z as r.
  pose proof (Z.div_mod r 1000000 ltac:(discriminate)) as E2.
  pose proof (Z.mod_pos_bound r 1000000 ltac:(reflexivity)) as B2.
  remember (r / 1000000)%Z as q2. remember (r mod 1000000)%Z as r2.
  lia.
Qed.

Lemma valid_unique a b :
  valid a -> valid b -> total_microseconds a = total_microseconds b -> a = b.
Proof.
  destruct a as [da sa ua], b as [db sb ub].
  unfold valid, total_microseconds. cbn [days seconds microseconds].
  intros Ha Hb E.
  assert (da = db /\ sa = sb /\ ua = ub) as [-> [-> ->]] by lia.
  reflexivity.
Qed.

Lemma from_seconds_valid n :
  (0 <= n <= max_seconds)%Z ->
  valid (from_seconds n)
  /\ total_microseconds (from_seconds n) = (n * 1000000)%Z.
Proof.
  unfold max_seconds, valid, total_microseconds, from_seconds, max_days.
  cbn [days seconds microseconds]. intros Hn.
  pose proof (Z.div_mod n 86400 ltac:(discriminate)) as E.
  pose proof (Z.mod_pos_bound n 86400 ltac:(reflexivity)) as B.
  remember (n / 86400)%Z as q. remember (n mod 86400)%Z as r.
  lia.
Qed.

(** The constructor on whole hours, minutes and seconds, as
    [_extract_duration] calls it. *)
Lemma new_hms h m s :
  let n := (3600 * h + 60 * m + s)%Z in
  (0 <= n)%Z ->
  Timedelta.new 0 s 0 0 m h 0
  = if (n <=? max_seconds)%Z then Ok (from_seconds n)
    else Raise OverflowError.
Proof.
  intros n Hn. unfold Timedelta.new.
  destruct (n <=? max_seconds)%Z eqn:E.
  - apply Z.leb_le in E.
    destruct (from_seconds_valid (conj Hn E)) as [V T].
    unfold max_seconds in E.
    destruct (normalize (0 + 7 * 0) (s + 60 * m + 3600 * h) (0 + 1000 * 0))
      as [t|e] eqn:En.
    + f_equal. destruct (normalize_spec _ _ _ En) as [Tt Vt].
      apply valid_unique; [exact Vt|exact V|].
      rewrite Tt, T. subst n. lia.
    + rewrite normalize_in_range in En; [discriminate|].
      unfold min_microseconds, max_microseconds. lia.
  - apply Z.leb_gt in E. unfold max_seconds in E.
    apply normalize_out_of_range. unfold max_microseconds. lia.
Qed.

Lemma add_spec a b t :
  add a b = Ok t ->
  total_microseconds t = (total_microseconds a + total_microseconds b)%Z
  /\ valid t.
Proof.
  intros E. apply normalize_spec in E. destruct E as [E V].
  split; [|exact V]. rewrite E. unfold total_microseconds. lia.
Qed.

Lemma add_in_range a b :
  (min_microseconds <= total_microseconds a + total_microseconds b
   <= max_microseconds)%Z ->
  exists t, add a b = Ok t.
Proof.
  intros HT. eexists. apply normalize_in_range.
  unfold total_microseconds in HT. lia.
Qed.

Lemma sum_in_range xs : forall start,
  Forall (fun x => 0 <= total_microseconds x)%Z xs ->
  (0 <= total_microseconds start)%Z ->
  (total_microseconds start + sum_microseconds xs <= max_microseconds)%Z ->
  valid start ->
  exists t, Timedelta.sum xs start = Ok t
            /\ total_microseconds t
               = (total_microseconds start + sum_microseconds xs)%Z
            /\ valid t.
Proof.
  induction xs as [|x xs IH]; intros start Hxs H0 Hmax V;
    cbn [Timedelta.sum sum_microseconds fold_right] in *.
  - exists start. repeat split; try apply V. lia.
  - inversion Hxs as [|? ? Hx Hxs']; subst.
    fold (sum_microseconds xs) in *.
    assert (Hs : (0 <= sum_microseconds xs)%Z).
    { clear -Hxs'. induction Hxs'; cbn; [lia|].
      fold (sum_microseconds l). lia. }
    destruct (@add_in_range start x) as [r Hr].
    { unfold min_microseconds. lia. }
    rewrite Hr. cbn [bind]. destruct (add_spec _ _ Hr) as [Tr Vr].
    destruct (IH r Hxs') as [t [Ht [Tt Vt]]]; try lia; try exact Vr.
    exists t. repeat split; try apply Vt; [exact Ht|lia].
Qed.


(** ** The group that [search] captures *)

Lemma search_from_base p s : forall base,
  option_map Re.group1 (Re.search_from p base s)
  = option_map Re.group1 (Re.search_from p 0 s).
Proof.
  induction s as [|c s IH]; intros base; cbn [Re.search_from].
  - reflexivity.
  - destruct (Re.match_here p (c :: s)); [reflexivity|].
    rewrite (IH (S base)), (IH 1%nat). reflexivity.
Qed.

Lemma found_nil p : found p [] = None.
Proof. reflexivity. Qed.

Lemma found_cons_other p c s :
  Py_UNICODE_ISDECIMAL c = false -> found p (c :: s) = found p s.
Proof.
  intros Hc. unfold found, Re.search. cbn [Re.search_from Re.match_here].
  rewrite Hc. apply search_from_base.
Qed.

Lemma found_skip p pre s :
  Forall (fun c => Py_UNICODE_ISDECIMAL c = false) pre ->
  found p (pre ++ s) = found p s.
Proof.
  induction 1 as [|c pre Hc Hpre IH]; cbn [app]; [reflexivity|].
  now rewrite found_cons_other.
Qed.

Lemma found_hit p X g s :
  Re.designator p = X -> Py_UNICODE_ISDECIMAL X = false ->
  g <> [] -> Forall decimal g ->
  found p (g ++ X :: s) = Some g.
Proof.
  intros <- HX Hne Hg. unfold found, Re.search.
  destruct g as [|c g]; [contradiction|].
  inversion Hg as [|? ? Hc Hg']; subst.
  cbn [app Re.search_from Re.match_here]. rewrite Hc.
  now rewrite more_digits_then_run.
Qed.

Lemma found_other p Y g s :
  Py_UNICODE_ISDECIMAL (Re.designator p) = false ->
  Py_UNICODE_ISDECIMAL Y = false -> Y <> Re.designator p ->
  Forall decimal g ->
  found p (g ++ Y :: s) = found p s.
Proof.
  intros HX HY HYX Hg.
  induction Hg as [|c g Hc Hg IH]; cbn [app].
  - now apply found_cons_other.
  - rewrite <- IH. unfold found, Re.search.
    cbn [Re.search_from Re.match_here]. rewrite Hc.
    rewrite more_digits_then_other by assumption.
    cbn [option_map]. apply search_from_base.
Qed.

Lemma group_or_zero_found p s :
  group_or_zero (Re.search p s)
  = match found p s with
    | Some g => int g
    | None => Ok 0%Z
    end.
Proof. unfold found. now destruct (Re.search p s). Qed.

Lemma search_leftmost p s :
  Py_UNICODE_ISDECIMAL (Re.designator p) = false ->
  leftmost p s (Re.search p s).
Proof.
  intros HX. unfold leftmost, Re.search.
  destruct (Re.search_from p 0 s) as [m|] eqn:E.
  - split.
    + destruct (@search_from_sound p s 0%nat m E) as [pos [-> Ho]]. exact Ho.
    + intros pos g Ho.
      exact (@search_from_leftmost p HX s 0%nat m pos g E Ho).
  - intros pos g. exact (@search_from_none p HX s 0%nat pos g E).
Qed.

Lemma search_group_decimal p s m :
  Re.search p s = Some m ->
  Re.group1 m <> [] /\ Forall decimal (Re.group1 m).
Proof.
  intros E. destruct (@search_from_sound p s 0%nat m E) as [pos [_ Ho]].
  destruct Ho as [Hne [Hg _]]. now split.
Qed.

Lemma group_or_zero_accepted p s :
  group_accepted (Re.search p s) = true ->
  group_or_zero (Re.search p s) = Ok (group_value (Re.search p s))
  /\ (0 <= group_value (Re.search p s))%Z.
Proof.
  destruct (Re.search p s) as [m|] eqn:E;
    cbn [group_accepted group_or_zero group_value]; [|split; [easy|lia]].
  intros Hacc. apply negb_true_iff in Hacc.
  destruct (search_group_decimal _ _ E) as [Hne Hg].
  destruct (int_accum_decimal 0 Hg) as [v Hv]. rewrite Hv.
  split; [|now apply (int_accum_nonneg (Re.group1 m))].
  unfold int. destruct (Re.group1 m) as [|c g] eqn:G; [contradiction|].
  now rewrite Hacc, Hv.
Qed.

Lemma group_or_zero_raises m e :
  group_or_zero m = Raise e -> e = ValueError.
Proof.
  destruct m as [m|]; cbn [group_or_zero]; [|discriminate].
  unfold int. destruct (Re.group1 m); [congruence|].
  destruct (digits_refused _); [congruence|].
  destruct (int_accum 0 _); [discriminate|congruence].
Qed.

Lemma new_raises d s us ms m h w e :
  Timedelta.new d s us ms m h w = Raise e -> e = OverflowError.
Proof.
  unfold Timedelta.new, normalize.
  destruct (Z.abs _ <=? max_days)%Z; [discriminate|congruence].
Qed.

(** The parser on any string whose groups pass the length check of
    [int]. *)
Lemma extract_duration_accepted ttl d :
  groups_accepted d = true ->
  _extract_duration (video ttl d)
  = if (hms_seconds d <=? max_seconds)%Z then Ok (from_seconds (hms_seconds d))
    else Raise OverflowError.
Proof.
  unfold groups_accepted. intros Hacc.
  apply andb_prop in Hacc. destruct Hacc as [Hacc Hs].
  apply andb_prop in Hacc. destruct Hacc as [Hh Hm].
  destruct (group_or_zero_accepted _ _ Hh) as [Eh Ph].
  destruct (group_or_zero_accepted _ _ Hm) as [Em Pm].
  destruct (group_or_zero_accepted _ _ Hs) as [Es Ps].
  unfold _extract_duration, video.
  cbn [Api.duration Api.contentDetails].
  rewrite Eh, Em, Es. cbn [bind].
  rewrite new_hms by lia. reflexivity.
Qed.

(** ** The parser on the strings of the duration grammar *)

Lemma digits_decimal n : Forall decimal (digits n).
Proof. apply ascii_digits_decimal, digits_ascii. Qed.

Ltac find_group :=
  repeat first
    [ rewrite found_nil
    | rewrite found_hit
        by (first [reflexivity | apply digits_nonempty | apply digits_decimal])
    | rewrite found_other
        by (first [reflexivity | apply digits_decimal | cbn; discriminate]) ].

Lemma found_duration_string pre h m s :
  Forall (fun c => Py_UNICODE_ISDECIMAL c = false) pre ->
  found hours_pattern (duration_string pre h m s) = option_map digits h
  /\ found minutes_pattern (duration_string pre h m s) = option_map digits m
  /\ found seconds_pattern (duration_string pre h m s) = option_map digits s.
Proof.
  intros Hpre. unfold duration_string.
  repeat split; rewrite found_skip by exact Hpre;
    destruct h, m, s; cbn [field app option_map];
    rewrite <- ?app_assoc; cbn [app]; find_group; reflexivity.
Qed.

Lemma int_accum_ascii g : forall acc,
  Forall ascii_digit g ->
  int_accum acc g
  = Some (fold_left (fun acc c => (10 * acc + (Z.of_N c - 48))%Z) g acc).
Proof.
  induction g as [|c g IH]; intros acc Hg; cbn [int_accum fold_left];
    [reflexivity|].
  inversion Hg as [|? ? Hc Hg']; subst.
  rewrite (todecimal_ascii Hc), (IH _ Hg'). do 2 f_equal.
  unfold ascii_digit in Hc. lia.
Qed.

Lemma digits_accepted n :
  (n <= max_str_digits)%nat -> digits_refused n = false.
Proof.
  intros Hn. unfold digits_refused.
  replace (max_str_digits <? n)%nat with false
    by (symmetry; apply Nat.ltb_ge; exact Hn).
  apply andb_false_r.
Qed.

(** [int] on an integer of the grammar. *)
Lemma int_numeral g :
  numeral (Some g) -> int g = Ok (decimal_value g).
Proof.
  intros [Hne [Hg Hlen]]. unfold int.
  destruct g as [|c g]; [contradiction|].
  rewrite (digits_accepted Hlen), (int_accum_ascii 0 Hg). reflexivity.
Qed.

Lemma numeral_amount_nonneg g : numeral g -> (0 <= numeral_amount g)%Z.
Proof.
  destruct g as [g|]; cbn [numeral numeral_amount]; [|lia].
  intros [_ [Hg _]]. unfold decimal_value.
  apply (@int_accum_nonneg g 0%Z); [lia|]. now apply int_accum_ascii.
Qed.

Lemma numeral_group g :
  numeral (Some g) -> g <> [] /\ Forall decimal g.
Proof.
  intros [Hne [Hg _]]. split; [exact Hne|now apply ascii_digits_decimal].
Qed.

Ltac find_numeral :=
  repeat first
    [ rewrite found_nil
    | rewrite found_hit by (first [reflexivity | assumption])
    | rewrite found_other
        by (first [reflexivity | assumption | cbn; discriminate]) ].

Lemma found_grammar_string pre h m s :
  Forall (fun c => Py_UNICODE_ISDECIMAL c = false) pre ->
  numeral h -> numeral m -> numeral s ->
  found hours_pattern (grammar_string pre h m s) = h
  /\ found minutes_pattern (grammar_string pre h m s) = m
  /\ found seconds_pattern (grammar_string pre h m s) = s.
Proof.
  intros Hpre Hh Hm Hs. unfold grammar_string.
  destruct h as [h|]; [destruct (numeral_group Hh) as [Nh Dh]|];
    (destruct m as [m|]; [destruct (numeral_group Hm) as [Nm Dm]|]);
    (destruct s as [s|]; [destruct (numeral_group Hs) as [Ns Ds]|]);
    (split; [|split]); rewrite found_skip by exact Hpre;
    cbn [numeral_field app]; rewrite <- ?app_assoc; cbn [app];
    find_numeral; reflexivity.
Qed.

Lemma int_numeral_field g :
  numeral g ->
  match g with
  | Some g => int g
  | None => Ok 0%Z
  end = Ok (numeral_amount g).
Proof.
  destruct g as [g|]; cbn [numeral_amount]; [|reflexivity].
  apply int_numeral.
Qed.

(** The parser on a string of the grammar, whatever its total. *)
Lemma extract_grammar_string ttl pre h m s :
  Forall (fun c => Py_UNICODE_ISDECIMAL c = false) pre ->
  numeral h -> numeral m -> numeral s ->
  _extract_duration (video ttl (grammar_string pre h m s))
  = if (numeral_amount h * 3600 + numeral_amount m * 60 + numeral_amount s
        <=? max_seconds)%Z
    then Ok (from_seconds (numeral_amount h * 3600 + numeral_amount m * 60
                           + numeral_amount s))
    else Raise OverflowError.
Proof.
  intros Hpre Hh Hm Hs.
  destruct (@found_grammar_string pre h m s Hpre Hh Hm Hs) as [Fh [Fm Fs]].
  pose proof (@numeral_amount_nonneg h Hh).
  pose proof (@numeral_amount_nonneg m Hm).
  pose proof (@numeral_amount_nonneg s Hs).
  unfold _extract_duration, video. cbn [Api.duration Api.contentDetails].
  rewrite !group_or_zero_found, Fh, Fm, Fs.
  rewrite (@int_numeral_field h Hh), (@int_numeral_field m Hm),
    (@int_numeral_field s Hs).
  cbn [bind]. rewrite new_hms by lia.
  replace (3600 * numeral_amount h + 60 * numeral_amount m
           + numeral_amount s)%Z
    with (numeral_amount h * 3600 + numeral_amount m * 60
          + numeral_amount s)%Z by lia.
  reflexivity.
Qed.

(** C1, as amended.  A string of the simplified grammar (an optional
    integer of hours followed by [H], an optional integer of minutes
    followed by [M], an optional integer of seconds followed by [S], in
    this order, after a prefix without digits such as [PT]; an integer is
    any run of digits, leading zeros included, of at most 4300 digits, which
    is what [int] converts) whose total [hours*3600 + minutes*60 + seconds]
    does not exceed the 86399999999999 seconds of [timedelta.max] parses to
    exactly this total, an absent component counting for 0.  ["1H2M3S"]
    parses to 3723 seconds, and so does ["PT01H02M03S"], ["5M"] parses to
    300 seconds and the empty string to 0 seconds. *)
Theorem extract_duration_grammar :
  (forall ttl pre h m s,
      Forall (fun c => Py_UNICODE_ISDECIMAL c = false) pre ->
      numeral h -> numeral m -> numeral s ->
      (numeral_amount h * 3600 + numeral_amount m * 60 + numeral_amount s
       <= max_seconds)%Z ->
      exists t,
        _extract_duration (video ttl (grammar_string pre h m s)) = Ok t
        /\ total_microseconds t
           = (1000000 * (numeral_amount h * 3600 + numeral_amount m * 60
                         + numeral_amount s))%Z
        /\ valid t)
  /\ _extract_duration (video [] (lit "1H2M3S"))
     = Ok {| days := 0; seconds := 3723; microseconds := 0 |}
  /\ _extract_duration (video [] (lit "PT01H02M03S"))
     = Ok {| days := 0; seconds := 3723; microseconds := 0 |}
  /\ _extract_duration (video [] (lit "5M"))
     = Ok {| days := 0; seconds := 300; microseconds := 0 |}
  /\ _extract_duration (video [] (lit ""))
     = Ok {| days := 0; seconds := 0; microseconds := 0 |}.
Proof.
  split; [|split; [|split; [|split]]; vm_compute; reflexivity].
  intros ttl pre h m s Hpre Hh Hm Hs Hmax.
  pose proof (@numeral_amount_nonneg h Hh).
  pose proof (@numeral_amount_nonneg m Hm).
  pose proof (@numeral_amount_nonneg s Hs).
  exists (from_seconds (numeral_amount h * 3600 + numeral_amount m * 60
                        + numeral_amount s)).
  split.
  - rewrite (@extract_grammar_string ttl pre h m s Hpre Hh Hm Hs).
    apply Z.leb_le in Hmax. now rewrite Hmax.
  - destruct (@from_seconds_valid
                (numeral_amount h * 3600 + numeral_amount m * 60
                 + numeral_amount s)) as [V T]; [lia|].
    split; [rewrite T; lia|exact V].
Qed.

Lemma extract_duration_grammar_witness :
  grammar_string (lit "PT") (Some (lit "01")) (Some (lit "02"))
                 (Some (lit "03"))
  = lit "PT01H02M03S"
  /\ exists t,
      _extract_duration (video (lit "T1") (lit "PT01H02M03S")) = Ok t
      /\ total_microseconds t = 3723000000%Z
      /\ valid t.
Proof.
  split; [reflexivity|].
  apply (proj1 extract_duration_grammar (lit "T1") (lit "PT")
               (Some (lit "01")) (Some (lit "02")) (Some (lit "03"))).
  - repeat constructor.
  - split; [discriminate|].
    split; [repeat constructor; vm_compute; discriminate|].
    apply Nat.leb_le. vm_compute. reflexivity.
  - split; [discriminate|].
    split; [repeat constructor; vm_compute; discriminate|].
    apply Nat.leb_le. vm_compute. reflexivity.
  - split; [discriminate|].
    split; [repeat constructor; vm_compute; discriminate|].
    apply Nat.leb_le. vm_compute. reflexivity.
  - vm_compute. discriminate.
Defined.

(** C1 as stated fails: the grammar string ["PT24000000000H"] is 10^9 days
    long, which no [timedelta] can hold; the parser raises [OverflowError]
    instead of returning 86400000000000 seconds. *)
Lemma extract_duration_grammar_overflow :
  grammar_string (lit "PT") (Some (lit "24000000000")) None None
  = lit "PT24000000000H"
  /\ duration_string (lit "PT") (Some 24000000000%N) None None
     = lit "PT24000000000H"
  /\ _extract_duration (video [] (lit "PT24000000000H")) = Raise OverflowError
  /\ ~ exists t,
         _extract_duration
           (video [] (duration_string (lit "PT") (Some 24000000000%N)
                                      None None)) = Ok t
         /\ total_microseconds t = (1000000 * (24000000000 * 3600))%Z.
Proof.
  split; [vm_compute; reflexivity|].
  split; [vm_compute; reflexivity|].
  split; [vm_compute; reflexivity|].
  intros [t [E _]]. vm_compute in E. discriminate.
Qed.

(** ** The parser on arbitrary strings *)

(** C9, as amended.  The parser validates nothing about the shape of its
    input: for every string whose captured groups pass the length check of
    [int] it returns the duration of [3600*hours + 60*minutes + seconds]
    seconds, as long as that total does not exceed the 86399999999999
    seconds of [timedelta.max], and it raises [OverflowError] beyond; a
    string in which no pattern matches yields the zero duration.  The only
    exceptions it can raise at all are [OverflowError] and [ValueError]. *)
Theorem extract_duration_lenient :
  forall ttl d,
    (groups_accepted d = true ->
     (hms_seconds d <= max_seconds)%Z ->
     exists t, _extract_duration (video ttl d) = Ok t
               /\ total_microseconds t = (1000000 * hms_seconds d)%Z
               /\ valid t)
    /\ (groups_accepted d = true ->
        (max_seconds < hms_seconds d)%Z ->
        _extract_duration (video ttl d) = Raise OverflowError)
    /\ (Re.search hours_pattern d = None ->
        Re.search minutes_pattern d = None ->
        Re.search seconds_pattern d = None ->
        _extract_duration (video ttl d)
        = Ok {| days := 0; seconds := 0; microseconds := 0 |})
    /\ (forall e, _extract_duration (video ttl d) = Raise e ->
                  e = OverflowError \/ e = ValueError).
Proof.
  intros ttl d. repeat split.
  - intros Hacc Hmax. rewrite (extract_duration_accepted ttl d Hacc).
    assert (H0 : (0 <= hms_seconds d)%Z).
    { unfold groups_accepted in Hacc.
      apply andb_prop in Hacc. destruct Hacc as [Hacc Hs].
      apply andb_prop in Hacc. destruct Hacc as [Hh Hm].
      pose proof (proj2 (group_or_zero_accepted _ _ Hh)).
      pose proof (proj2 (group_or_zero_accepted _ _ Hm)).
      pose proof (proj2 (group_or_zero_accepted _ _ Hs)).
      unfold hms_seconds. lia. }
    destruct (@from_seconds_valid (hms_seconds d)) as [V T]; [lia|].
    exists (from_seconds (hms_seconds d)).
    apply Z.leb_le in Hmax. rewrite Hmax.
    repeat split; try apply V. rewrite T. lia.
  - intros Hacc Hmax. rewrite (extract_duration_accepted ttl d Hacc).
    apply Z.leb_gt in Hmax. now rewrite Hmax.
  - intros Hh Hm Hs. unfold _extract_duration, video.
    cbn [Api.duration Api.contentDetails]. now rewrite Hh, Hm, Hs.
  - intros e. unfold _extract_duration, video.
    cbn [Api.duration Api.contentDetails].
    destruct (group_or_zero (Re.search hours_pattern d)) as [h|e1] eqn:Eh;
      cbn [bind];
      [|intros [= <-]; right; exact (group_or_zero_raises _ Eh)].
    destruct (group_or_zero (Re.search minutes_pattern d)) as [m|e2] eqn:Em;
      cbn [bind];
      [|intros [= <-]; right; exact (group_or_zero_raises _ Em)].
    destruct (group_or_zero (Re.search seconds_pattern d)) as [s|e3] eqn:Es;
      cbn [bind];
      [|intros [= <-]; right; exact (group_or_zero_raises _ Es)].
    intros E. left. exact (new_raises _ _ _ _ _ _ _ E).
Qed.

Lemma extract_duration_lenient_witness :
  groups_accepted (lit "about 12M and 7S!") = true
  /\ (hms_seconds (lit "about 12M and 7S!") <= max_seconds)%Z
  /\ exists t,
      _extract_duration (video [] (lit "about 12M and 7S!")) = Ok t
      /\ total_microseconds t
         = (1000000 * hms_seconds (lit "about 12M and 7S!"))%Z
      /\ valid t.
Proof.
  split; [vm_compute; reflexivity|].
  split; [vm_compute; discriminate|].
  apply (proj1 (extract_duration_lenient [] (lit "about 12M and 7S!"))).
  - vm_compute. reflexivity.
  - vm_compute. discriminate.
Defined.

(** C9 as stated fails: on the input ["24000000000H"] the parser returns no
    duration value, it raises [OverflowError]. *)
Lemma extract_duration_raises :
  _extract_duration (video [] (lit "24000000000H")) = Raise OverflowError
  /\ ~ exists t, _extract_duration (video [] (lit "24000000000H")) = Ok t.
Proof.
  split; [vm_compute; reflexivity|].
  intros [t E]. vm_compute in E. discriminate.
Qed.

(** C10.  For every string, each of the three components is taken from the
    leftmost occurrence of its own pattern, digits followed by the
    designator, wherever that is in the string and whatever the other two
    patterns find; the parser builds its result from these three searches
    alone.  ["1M2M"] yields 1 minute, and in ["3HPT1H"] the hours before the
    [PT] marker are the ones taken. *)
Theorem components_leftmost :
  (forall d,
      leftmost hours_pattern d (Re.search hours_pattern d)
      /\ leftmost minutes_pattern d (Re.search minutes_pattern d)
      /\ leftmost seconds_pattern d (Re.search seconds_pattern d))
  /\ (forall ttl d,
         _extract_duration (video ttl d)
         = (h <- group_or_zero (Re.search hours_pattern d) ;;
            m <- group_or_zero (Re.search minutes_pattern d) ;;
            s <- group_or_zero (Re.search seconds_pattern d) ;;
            Timedelta.new 0 s 0 0 m h 0))
  /\ Re.search minutes_pattern (lit "1M2M")
     = Some {| Re.start := 0; Re.group1 := lit "1" |}
  /\ _extract_duration (video [] (lit "1M2M"))
     = Ok {| days := 0; seconds := 60; microseconds := 0 |}
  /\ Re.search hours_pattern (lit "3HPT1H")
     = Some {| Re.start := 0; Re.group1 := lit "3" |}
  /\ _extract_duration (video [] (lit "3HPT1H"))
     = Ok {| days := 0; seconds := 10800; microseconds := 0 |}.
Proof.
  split; [|split; [reflexivity|]].
  - intros d. split; [|split]; apply search_leftmost; reflexivity.
  - split; [|split; [|split]]; vm_compute; reflexivity.
Qed.


(** ** [get_video_ids]: following the continuation tokens *)

Section Pages.

Context {H : Type} `{Api.Handler H}.
Variable playlist_id : str.

Lemma get_video_ids_loop_serves h token pages h' :
  serves playlist_id h token pages h' ->
  forall fuel video_ids,
    (length pages <= fuel)%nat ->
    get_video_ids_loop fuel h playlist_id video_ids token
    = Some (Ok (video_ids ++ concat (map page_ids pages), h')).
Proof.
  induction 1 as [h token pg h' Hex Htok
                 |h token pg h' pages h'' Hex Htok Hrest IH];
    intros fuel video_ids Hfuel;
    (destruct fuel as [|fuel]; [cbn in Hfuel; lia|]);
    cbn [get_video_ids_loop]; fold (page_request playlist_id token);
    rewrite Hex, Htok; cbn [negb map concat].
  - now rewrite app_nil_r.
  - rewrite IH by (cbn in Hfuel; lia).
    fold (page_ids pg). now rewrite <- app_assoc.
Qed.

Lemma get_video_ids_loop_short h token pages h' :
  serves playlist_id h token pages h' ->
  forall fuel video_ids,
    (fuel < length pages)%nat ->
    get_video_ids_loop fuel h playlist_id video_ids token = None.
Proof.
  induction 1 as [h token pg h' Hex Htok
                 |h token pg h' pages h'' Hex Htok Hrest IH];
    intros fuel video_ids Hfuel;
    (destruct fuel as [|fuel]; [reflexivity|]).
  - cbn in Hfuel. lia.
  - cbn [get_video_ids_loop]. fold (page_request playlist_id token).
    rewrite Hex, Htok. cbn [negb]. apply IH. cbn in Hfuel. lia.
Qed.

End Pages.

Lemma scripted_serves playlist_id videos : forall pages seen token,
  chained pages = true ->
  serves playlist_id
         {| pages_left := pages; catalogue := videos; requests_seen := seen |}
         token pages
         {| pages_left := []; catalogue := videos;
            requests_seen := seen ++ page_requests playlist_id token pages |}.
Proof.
  induction pages as [|p pages IH]; intros seen token Hc; [discriminate|].
  destruct pages as [|p' pages].
  - cbn [chained] in Hc. apply negb_true_iff in Hc.
    apply serves_last; [reflexivity|exact Hc].
  - cbn [chained] in Hc. apply andb_prop in Hc. destruct Hc as [Hp Hc].
    eapply serves_next; [reflexivity|exact Hp|].
    specialize (IH (seen ++ [page_request playlist_id token])
                   (Api.nextPageToken p) Hc).
    rewrite <- app_assoc in IH. exact IH.
Qed.

(** C2.  When the remote side answers the successive requests with a finite
    sequence of pages, every page but the last with a continuation token and
    the last without, [get_video_ids] ends after exactly one request per
    page, issued in this order (any bound of at least that many requests
    lets it finish, no smaller bound does, and the remote side is left in
    the state after the last page), and it returns the video ids of the
    pages concatenated in the order of delivery.  For a remote side that
    serves a given sequence of pages, the requests it has received at the
    end are those for the pages, each with the token of the page before. *)
Theorem get_video_ids_pages :
  (forall (H : Type) (HH : Api.Handler H) (playlist_id : str)
          (handler handler' : H) (pages : list Api.PlaylistItemsResponse),
      serves playlist_id handler None pages handler' ->
      (forall fuel, (length pages <= fuel)%nat ->
                    get_video_ids fuel handler playlist_id
                    = Some (Ok (concat (map page_ids pages), handler')))
      /\ (forall fuel, (fuel < length pages)%nat ->
                       get_video_ids fuel handler playlist_id = None))
  /\ (forall playlist_id videos pages,
         chained pages = true ->
         get_video_ids (length pages)
                       {| pages_left := pages; catalogue := videos;
                          requests_seen := [] |}
                       playlist_id
         = Some (Ok (concat (map page_ids pages),
                     {| pages_left := []; catalogue := videos;
                        requests_seen :=
                          page_requests playlist_id None pages |}))).
Proof.
  assert (General :
            forall (H : Type) (HH : Api.Handler H) (playlist_id : str)
                   (handler handler' : H) pages,
              serves playlist_id handler None pages handler' ->
              (forall fuel, (length pages <= fuel)%nat ->
                            get_video_ids fuel handler playlist_id
                            = Some (Ok (concat (map page_ids pages),
                                        handler')))
              /\ (forall fuel, (fuel < length pages)%nat ->
                               get_video_ids fuel handler playlist_id
                               = None)).
  { intros H HH playlist_id handler handler' pages Hs. split.
    - intros fuel Hfuel. unfold get_video_ids.
      now rewrite (get_video_ids_loop_serves Hs) by exact Hfuel.
    - intros fuel Hfuel. unfold get_video_ids.
      exact (get_video_ids_loop_short Hs _ Hfuel). }
  split; [exact General|].
  intros playlist_id videos pages Hc.
  pose proof (@scripted_serves playlist_id videos pages [] None Hc) as Hs.
  cbn [app] in Hs.
  exact (proj1 (General _ _ _ _ _ _ Hs) (length pages) (Nat.le_refl _)).
Qed.

Lemma get_video_ids_pages_witness :
  chained scenario_pages = true
  /\ get_video_ids 2 scenario_remote (lit "PL1")
     = Some (Ok ([lit "v1"; lit "v2"; lit "v3"],
                 {| pages_left := []; catalogue := scenario_videos;
                    requests_seen := [page_request (lit "PL1") None;
                                      page_request (lit "PL1")
                                                   (Some (lit "CAIQAA"))] |}))
  /\ get_video_ids 1 scenario_remote (lit "PL1") = None.
Proof.
  split; [reflexivity|].
  split.
  - exact (proj2 get_video_ids_pages (lit "PL1") scenario_videos
                 scenario_pages eq_refl).
  - assert (Hs : serves (lit "PL1") scenario_remote None scenario_pages
                   scenario_remote_after).
    { eapply serves_next; [reflexivity|reflexivity|].
      eapply serves_last; reflexivity. }
    apply (proj2 (proj1 get_video_ids_pages _ _ _ _ _ _ Hs) 1%nat).
    cbn. lia.
Defined.

(** ** Assembling the items *)

Lemma group_or_zero_nonneg m v : group_or_zero m = Ok v -> (0 <= v)%Z.
Proof.
  destruct m as [m|]; cbn [group_or_zero]; [|intros [= <-]; lia].
  unfold int. destruct (Re.group1 m) as [|c g]; [discriminate|].
  destruct (digits_refused _); [discriminate|].
  destruct (int_accum 0 (c :: g)) as [z|] eqn:E; [|discriminate].
  intros [= <-]. now apply (int_accum_nonneg (c :: g)) in E.
Qed.

(** Every duration that the parser returns is a proper, non-negative
    [timedelta]. *)
Lemma extract_duration_valid item t :
  _extract_duration item = Ok t ->
  valid t /\ (0 <= total_microseconds t)%Z.
Proof.
  unfold _extract_duration.
  destruct (group_or_zero (Re.search hours_pattern _)) as [h|] eqn:Eh;
    cbn [bind]; [|discriminate].
  destruct (group_or_zero (Re.search minutes_pattern _)) as [m|] eqn:Em;
    cbn [bind]; [|discriminate].
  destruct (group_or_zero (Re.search seconds_pattern _)) as [s|] eqn:Es;
    cbn [bind]; [|discriminate].
  apply group_or_zero_nonneg in Eh, Em, Es.
  unfold Timedelta.new. intros E. apply normalize_spec in E.
  destruct E as [T V]. split; [exact V|]. rewrite T. lia.
Qed.

Lemma create_items_length pairs : forall items,
  create_items pairs = Ok items -> length items = length pairs.
Proof.
  induction pairs as [|[item video_id] pairs IH]; intros items;
    cbn [create_items].
  - now intros [= <-].
  - destruct (create_item item video_id) as [i|]; cbn [bind]; [|discriminate].
    destruct (create_items pairs) as [rest|]; cbn [bind]; [|discriminate].
    intros [= <-]. cbn [length]. now rewrite (IH rest).
Qed.

Lemma assemble_paired details : forall ids,
  (forall d, In d (firstn (length ids) details) ->
             exists t, _extract_duration d = Ok t) ->
  exists items,
    assemble details ids = Ok items
    /\ forall i d id,
        nth_error details i = Some d -> nth_error ids i = Some id ->
        exists t,
          _extract_duration d = Ok t
          /\ nth_error items i
             = Some {| title := Api.title (Api.snippet d);
                       url := lit "https://www.youtube.com/watch?v=" ++ id;
                       duration := t |}.
Proof.
  unfold assemble.
  induction details as [|d0 details IH]; intros ids Hparse.
  - exists []. split; [reflexivity|]. intros [|i]; discriminate.
  - destruct ids as [|id0 ids].
    + exists []. split; [reflexivity|]. intros [|i] d id _; discriminate.
    + cbn [combine create_items].
      destruct (Hparse d0) as [t0 Ht0]; [now left|].
      unfold create_item at 1. rewrite Ht0. cbn [bind].
      destruct (IH ids) as [rest [Hrest Hnth]].
      { intros d Hd. apply Hparse. cbn [length firstn]. now right. }
      rewrite Hrest. cbn [bind]. eexists. split; [reflexivity|].
      intros [|i] d id; cbn [nth_error].
      * intros [= <-] [= <-]. exists t0. split; [exact Ht0|reflexivity].
      * apply Hnth.
Qed.

(** C3, as amended.  For every pair of sequences of detail records and ids,
    of whatever lengths, in which the duration of every detail record that
    has an id at its position is one that the parser returns a value for,
    the assembly step produces exactly [min(len(details), len(ids))] items,
    and the i-th item has the title of the i-th detail record, the link
    [https://www.youtube.com/watch?v=<id>] of the i-th id and the parsed
    duration of the i-th detail record. *)
Theorem assemble_zip :
  forall details ids,
    (forall d, In d (firstn (length ids) details) ->
               exists t, _extract_duration d = Ok t) ->
    exists items,
      assemble details ids = Ok items
      /\ length items = Nat.min (length details) (length ids)
      /\ forall i d id,
          nth_error details i = Some d -> nth_error ids i = Some id ->
          exists t,
            _extract_duration d = Ok t
            /\ nth_error items i
               = Some {| title := Api.title (Api.snippet d);
                         url := lit "https://www.youtube.com/watch?v=" ++ id;
                         duration := t |}.
Proof.
  intros details ids Hparse.
  destruct (assemble_paired details ids Hparse) as [items [Hitems Hnth]].
  exists items. split; [exact Hitems|]. split; [|exact Hnth].
  unfold assemble in Hitems. apply create_items_length in Hitems.
  now rewrite Hitems, length_combine.
Qed.

Lemma assemble_zip_witness :
  exists items,
    assemble scenario_videos [lit "v1"; lit "v2"] = Ok items
    /\ length items = 2%nat
    /\ forall i d id,
        nth_error scenario_videos i = Some d ->
        nth_error [lit "v1"; lit "v2"] i = Some id ->
        exists t,
          _extract_duration d = Ok t
          /\ nth_error items i
             = Some {| title := Api.title (Api.snippet d);
                       url := lit "https://www.youtube.com/watch?v=" ++ id;
                       duration := t |}.
Proof.
  apply (assemble_zip scenario_videos [lit "v1"; lit "v2"]).
  intros d [<-|[<-|[]]]; eexists; vm_compute; reflexivity.
Defined.

(** C3 as stated fails: a detail record whose duration is 10^9 days long
    makes the assembly step raise [OverflowError]; no item sequence is
    produced for the one detail record and the one id. *)
Lemma assemble_raises :
  assemble [video (lit "T1") (lit "PT24000000000H")] [lit "v1"]
  = Raise OverflowError
  /\ ~ exists items,
         assemble [video (lit "T1") (lit "PT24000000000H")] [lit "v1"]
         = Ok items
         /\ length items = Nat.min 1 1.
Proof.
  split; [vm_compute; reflexivity|].
  intros [items [E _]]. vm_compute in E. discriminate.
Qed.


(** ** The total duration *)

Lemma add_zero_l d :
  valid d -> add {| days := 0; seconds := 0; microseconds := 0 |} d = Ok d.
Proof.
  intros V. unfold add. cbn [days seconds microseconds].
  destruct (normalize (0 + days d) (0 + seconds d) (0 + microseconds d))
    as [t|e] eqn:E.
  - f_equal. destruct (normalize_spec _ _ _ E) as [T Vt].
    apply valid_unique; [exact Vt|exact V|].
    rewrite T. unfold total_microseconds. lia.
  - rewrite normalize_in_range in E; [discriminate|].
    unfold valid, max_days in V.
    unfold min_microseconds, max_microseconds. lia.
Qed.

Lemma get_total_duration_in_range items :
  Forall (fun i => 0 <= total_microseconds (duration i))%Z items ->
  (sum_microseconds (map duration items) <= max_microseconds)%Z ->
  exists t,
    get_total_duration items = Ok t
    /\ total_microseconds t = sum_microseconds (map duration items)
    /\ valid t.
Proof.
  intros Hitems Hmax. unfold get_total_duration.
  change (Timedelta.new 0 0 0 0 0 0 0)
    with (Ok {| days := 0; seconds := 0; microseconds := 0 |}).
  cbn [bind].
  destruct (@sum_in_range (map duration items)
              {| days := 0; seconds := 0; microseconds := 0 |})
    as [t [Ht [Tt Vt]]].
  - now apply Forall_map.
  - cbn. lia.
  - cbn. exact Hmax.
  - unfold valid, max_days. cbn. lia.
  - exists t. repeat split; try apply Vt; [exact Ht|].
    rewrite Tt. reflexivity.
Qed.

(** C4, as amended.  For every sequence of items with non-negative
    durations whose sum does not exceed [timedelta.max],
    [get_total_duration] returns the sum of the durations, starting from the
    zero duration; the empty sequence yields the zero duration, and two
    items yield [d1 + d2], the sum in [timedelta] arithmetic, which is the
    sum of the two elapsed times whenever that sum does not exceed
    [timedelta.max]. *)
Theorem get_total_duration_sum :
  (forall items,
      Forall (fun i => 0 <= total_microseconds (duration i))%Z items ->
      (sum_microseconds (map duration items) <= max_microseconds)%Z ->
      exists t,
        get_total_duration items = Ok t
        /\ total_microseconds t = sum_microseconds (map duration items)
        /\ valid t)
  /\ get_total_duration []
     = Ok {| days := 0; seconds := 0; microseconds := 0 |}
  /\ (forall i1 i2,
         valid (duration i1) ->
         get_total_duration [i1; i2] = add (duration i1) (duration i2))
  /\ (forall i1 i2,
         (0 <= total_microseconds (duration i1))%Z ->
         (0 <= total_microseconds (duration i2))%Z ->
         (total_microseconds (duration i1) + total_microseconds (duration i2)
          <= max_microseconds)%Z ->
         exists t,
           get_total_duration [i1; i2] = Ok t
           /\ total_microseconds t
              = (total_microseconds (duration i1)
                 + total_microseconds (duration i2))%Z).
Proof.
  split; [exact get_total_duration_in_range|].
  split; [reflexivity|]. split.
  - intros i1 i2 V. unfold get_total_duration.
    change (Timedelta.new 0 0 0 0 0 0 0)
      with (Ok {| days := 0; seconds := 0; microseconds := 0 |}).
    cbn [bind map Timedelta.sum]. rewrite (add_zero_l V). cbn [bind].
    now destruct (add (duration i1) (duration i2)).
  - intros i1 i2 H1 H2 Hmax.
    destruct (@get_total_duration_in_range [i1; i2]) as [t [Ht [Tt _]]].
    + repeat constructor; assumption.
    + cbn. lia.
    + exists t. split; [exact Ht|]. rewrite Tt. cbn. lia.
Qed.

Lemma get_total_duration_sum_witness :
  exists t,
    get_total_duration
      [{| title := lit "T1"; url := lit "u1";
          duration := {| days := 0; seconds := 3600; microseconds := 0 |} |};
       {| title := lit "T2"; url := lit "u2";
          duration := {| days := 0; seconds := 1800; microseconds := 0 |} |}]
    = Ok t
    /\ total_microseconds t = 5400000000%Z
    /\ valid t.
Proof.
  apply (proj1 get_total_duration_sum
               [{| title := lit "T1"; url := lit "u1";
                   duration := {| days := 0; seconds := 3600;
                                  microseconds := 0 |} |};
                {| title := lit "T2"; url := lit "u2";
                   duration := {| days := 0; seconds := 1800;
                                  microseconds := 0 |} |}]).
  - repeat constructor; vm_compute; discriminate.
  - vm_compute. discriminate.
Defined.

(** C4 as stated fails: two items of 999999999 days each are non-negative
    durations, and [get_total_duration] returns no sum for them, it raises
    [OverflowError]. *)
Lemma get_total_duration_overflow :
  get_total_duration
    [{| title := lit "T1"; url := lit "u1";
        duration := {| days := 999999999; seconds := 0;
                       microseconds := 0 |} |};
     {| title := lit "T2"; url := lit "u2";
        duration := {| days := 999999999; seconds := 0;
                       microseconds := 0 |} |}]
  = Raise OverflowError
  /\ ~ exists t,
         get_total_duration
           [{| title := lit "T1"; url := lit "u1";
               duration := {| days := 999999999; seconds := 0;
                              microseconds := 0 |} |};
            {| title := lit "T2"; url := lit "u2";
               duration := {| days := 999999999; seconds := 0;
                              microseconds := 0 |} |}]
         = Ok t.
Proof.
  split; [vm_compute; reflexivity|].
  intros [t E]. vm_compute in E. discriminate.
Qed.

Lemma create_items_nonneg pairs : forall items,
  create_items pairs = Ok items ->
  Forall (fun i => 0 <= total_microseconds (duration i))%Z items.
Proof.
  induction pairs as [|[item video_id] pairs IH]; intros items;
    cbn [create_items].
  - intros [= <-]. constructor.
  - unfold create_item at 1.
    destruct (_extract_duration item) as [t|] eqn:Et; cbn [bind];
      [|discriminate].
    destruct (create_items pairs) as [rest|]; cbn [bind]; [|discriminate].
    intros [= <-]. constructor; [|now apply IH].
    cbn [duration]. now apply (extract_duration_valid item).
Qed.

(** C5, as amended.  For every assembled item list whose durations add up
    to at most [timedelta.max], the include-total-duration flag appends
    exactly one row at the end, with title ["Total Duration"], empty url and
    the sum of the durations of the items that were there before, which
    stay as they were; without the flag the list is left alone.  In the
    scenario of the two pages with [PT1H], [PT30M] and [PT45S] the appended
    row is printed with the duration [1:30:45]. *)
Theorem append_total_row :
  (forall details ids items,
      assemble details ids = Ok items ->
      (sum_microseconds (map duration items) <= max_microseconds)%Z ->
      exists total,
        append_total true items
        = Ok (items ++ [{| title := lit "Total Duration"; url := [];
                           duration := total |}])
        /\ total_microseconds total = sum_microseconds (map duration items)
        /\ valid total)
  /\ (forall items, append_total false items = Ok items)
  /\ main 2 (scenario_args "md" true) scenario_remote
     = Some (Ok (lines
                   ["| Title | Duration |";
                    "| :--- | :---: |";
                    "| [T1](https://www.youtube.com/watch?v=v1) | 1:00:00 |";
                    "| [T2](https://www.youtube.com/watch?v=v2) | 0:30:00 |";
                    "| [T3](https://www.youtube.com/watch?v=v3) | 0:00:45 |";
                    "| [Total Duration]() | 1:30:45 |"]%string
                 ++ [10%N],
                 scenario_remote_after)).
Proof.
  split; [|split; [reflexivity|vm_compute; reflexivity]].
  intros details ids items Hitems Hmax.
  apply create_items_nonneg in Hitems.
  destruct (get_total_duration_in_range Hitems Hmax) as [t [Ht [Tt Vt]]].
  exists t. unfold append_total. rewrite Ht. cbn [bind].
  split; [reflexivity|]. split; assumption.
Qed.

Lemma append_total_row_witness :
  exists items,
    assemble scenario_videos [lit "v1"; lit "v2"; lit "v3"] = Ok items
    /\ exists total,
        append_total true items
        = Ok (items ++ [{| title := lit "Total Duration"; url := [];
                           duration := total |}])
        /\ total_microseconds total = sum_microseconds (map duration items)
        /\ valid total.
Proof.
  eexists. split; [vm_compute; reflexivity|].
  eapply (proj1 append_total_row scenario_videos
                [lit "v1"; lit "v2"; lit "v3"]).
  - vm_compute. reflexivity.
  - vm_compute. discriminate.
Defined.

(** C5 as stated fails: two videos of 23999999976 hours (999999999 days)
    each are assembled into two items, and with the flag set no row is
    appended to them: computing the total raises [OverflowError]. *)
Lemma append_total_overflow :
  exists items,
    assemble [video (lit "T1") (lit "PT23999999976H");
              video (lit "T2") (lit "PT23999999976H")]
             [lit "v1"; lit "v2"] = Ok items
    /\ append_total true items = Raise OverflowError
    /\ ~ exists total,
           append_total true items
           = Ok (items ++ [{| title := lit "Total Duration"; url := [];
                              duration := total |}]).
Proof.
  eexists. split; [vm_compute; reflexivity|].
  split; [vm_compute; reflexivity|].
  intros [total E]. vm_compute in E. discriminate.
Qed.


(** ** Rendering *)

Lemma fold_left_append (A : Type) (f : A -> str) xs : forall init,
  fold_left (fun acc x => acc ++ f x) xs init = init ++ concat (map f xs).
Proof.
  induction xs as [|x xs IH]; intros init; cbn [fold_left map concat].
  - now rewrite app_nil_r.
  - now rewrite IH, app_assoc.
Qed.

(** C6.  For every sequence of items the Markdown renderer produces the
    header line, the alignment line and then one row per item, in the order
    of the sequence, of the form [| [<title>](<url>) | <duration> |] with
    the title, the url and [str(duration)] inserted as they are; the row of
    the total has an empty link target.  In the scenario of the three videos
    the durations are printed as [1:00:00], [0:30:00] and [0:00:45]. *)
Theorem markdown_table_rows :
  (forall items,
      create_markdown_table items
      = lit "| Title | Duration |" ++ [10%N]
        ++ lit "| :--- | :---: |" ++ [10%N]
        ++ concat (map (fun item =>
                          lit "| [" ++ title item ++ lit "]("
                          ++ url item ++ lit ") | "
                          ++ Timedelta.to_str (duration item)
                          ++ lit " |" ++ [10%N])
                       items))
  /\ (forall d,
         create_markdown_table
           [{| title := lit "Total Duration"; url := []; duration := d |}]
         = lines ["| Title | Duration |"; "| :--- | :---: |"]%string
           ++ lit "| [Total Duration]() | " ++ Timedelta.to_str d
           ++ lit " |" ++ [10%N])
  /\ main 2 (scenario_args "md" false) scenario_remote
     = Some (Ok (lines
                   ["| Title | Duration |";
                    "| :--- | :---: |";
                    "| [T1](https://www.youtube.com/watch?v=v1) | 1:00:00 |";
                    "| [T2](https://www.youtube.com/watch?v=v2) | 0:30:00 |";
                    "| [T3](https://www.youtube.com/watch?v=v3) | 0:00:45 |"]
                   %string
                 ++ [10%N],
                 scenario_remote_after)).
Proof.
  assert (Hrows : forall items,
             create_markdown_table items
             = lit "| Title | Duration |" ++ [10%N]
               ++ lit "| :--- | :---: |" ++ [10%N]
               ++ concat (map markdown_row items)).
  { intros items. unfold create_markdown_table.
    rewrite fold_left_append. now rewrite <- !app_assoc. }
  split; [exact Hrows|]. split; [|vm_compute; reflexivity].
  intros d. rewrite Hrows. cbn [map concat]. rewrite app_nil_r.
  reflexivity.
Qed.

(** C7.  For every sequence of items the CSV output is the header line
    [title,url,duration] followed by one line per item, in the order of the
    sequence, made of the title between two double quotes, a comma, the
    url, a comma and [str(duration)]; nothing in the three texts is
    escaped, so that the title [A, B] gives the line
    ["A, B",<url>,<duration>]. *)
Theorem csv_lines :
  (forall items,
      print_items (lit "csv") items []
      = lit "title,url,duration" ++ [10%N]
        ++ concat (map (fun item =>
                          [34%N] ++ title item ++ [34%N] ++ lit ","
                          ++ url item ++ lit ","
                          ++ Timedelta.to_str (duration item) ++ [10%N])
                       items))
  /\ (forall u d,
         print_items (lit "csv")
                     [{| title := lit "A, B"; url := u; duration := d |}] []
         = lit "title,url,duration" ++ [10%N]
           ++ [34%N] ++ lit "A, B" ++ [34%N] ++ lit "," ++ u ++ lit ","
           ++ Timedelta.to_str d ++ [10%N])
  /\ main 2 (scenario_args "csv" false) scenario_remote
     = Some (Ok (lit "title,url,duration" ++ [10%N]
                 ++ [34%N] ++ lit "T1" ++ [34%N]
                 ++ lit ",https://www.youtube.com/watch?v=v1,1:00:00"
                 ++ [10%N]
                 ++ [34%N] ++ lit "T2" ++ [34%N]
                 ++ lit ",https://www.youtube.com/watch?v=v2,0:30:00"
                 ++ [10%N]
                 ++ [34%N] ++ lit "T3" ++ [34%N]
                 ++ lit ",https://www.youtube.com/watch?v=v3,0:00:45"
                 ++ [10%N],
                 scenario_remote_after)).
Proof.
  assert (Hrows : forall items,
             print_items (lit "csv") items []
             = lit "title,url,duration" ++ [10%N]
               ++ concat (map (fun item => csv_row item ++ [10%N]) items)).
  { intros items. unfold print_items.
    change (str_eqb (lit "csv") (lit "md")) with false.
    change (str_eqb (lit "csv") (lit "csv")) with true.
    cbv iota. unfold print.
    rewrite (fold_left_append (fun item => csv_row item ++ [10%N])).
    reflexivity. }
  split; [|split; [|vm_compute; reflexivity]].
  - intros items. rewrite Hrows. do 3 f_equal. apply map_ext.
    intros item. unfold csv_row. now rewrite <- !app_assoc.
  - intros u d. rewrite Hrows. cbn [map concat]. unfold csv_row.
    cbn [title url duration]. rewrite app_nil_r.
    now rewrite <- !app_assoc.
Qed.

(** ** Reading a rendered duration back *)

Lemma split_on_field sep s :
  Forall (fun c => c <> sep) s -> split_on sep s = [s].
Proof.
  induction 1 as [|c s Hc Hs IH]; cbn [split_on]; [reflexivity|].
  apply N.eqb_neq in Hc. now rewrite Hc, IH.
Qed.

Lemma split_on_app sep s rest :
  Forall (fun c => c <> sep) s ->
  split_on sep (s ++ sep :: rest) = s :: split_on sep rest.
Proof.
  induction 1 as [|c s Hc Hs IH]; cbn [app split_on].
  - now rewrite N.eqb_refl.
  - apply N.eqb_neq in Hc. now rewrite Hc, IH.
Qed.

(** A number written with leading zeros. *)
Lemma padded_no_colon k n :
  Forall (fun c => c <> 58%N) (repeat 48%N k ++ digits n).
Proof.
  apply Forall_app. split.
  - apply Forall_forall. intros c Hc. apply repeat_spec in Hc. now subst c.
  - eapply Forall_impl; [|apply digits_ascii].
    unfold ascii_digit. intros c Hc. lia.
Qed.

Lemma int_accum_zeros k s :
  int_accum 0 (repeat 48%N k ++ s) = int_accum 0 s.
Proof.
  induction k as [|k IH]; cbn [repeat app int_accum]; [reflexivity|].
  change (Py_UNICODE_TODECIMAL 48%N) with (Some 0%N). exact IH.
Qed.

Lemma int_short (s : str) v :
  s <> [] -> (length s <= 640)%nat -> int_accum 0 s = Some v ->
  int s = Ok v.
Proof.
  intros Hne L Hv. unfold int. destruct s as [|c s]; [contradiction|].
  apply Nat.ltb_ge in L.
  unfold digits_refused, str_digits_check_threshold. rewrite L.
  cbn [andb]. now rewrite Hv.
Qed.

Lemma int_padded k n :
  (k <= 6)%nat -> (n < 2 ^ 47)%N ->
  int (repeat 48%N k ++ digits n) = Ok (Z.of_N n).
Proof.
  intros Hk Hn. apply int_short.
  - intros E. apply app_eq_nil in E. destruct E as [_ E].
    now apply digits_nonempty in E.
  - rewrite length_app, repeat_length. pose proof (digits_length n).
    assert (N.log2 n < 47)%N.
    { destruct (N.eq_dec n 0) as [->|Hn0]; [reflexivity|].
      apply N.log2_lt_pow2; lia. }
    unfold str, char in *. lia.
  - now rewrite int_accum_zeros, digits_value.
Qed.

Lemma format_0d_nonneg width z :
  (0 <= z)%Z ->
  format_0d width z
  = repeat 48%N (width - length (digits (Z.to_N z))) ++ digits (Z.to_N z).
Proof.
  intros Hz. unfold format_0d, zfill.
  replace (z <? 0)%Z with false by (symmetry; apply Z.ltb_ge; lia).
  replace (Z.abs_N z) with (Z.to_N z); [reflexivity|].
  destruct z; try reflexivity. lia.
Qed.

Lemma to_str_below_a_day n :
  (0 <= n < 86400)%Z ->
  Timedelta.to_str (from_seconds n)
  = format_d (n / 60 / 60) ++ lit ":" ++ format_0d 2 (n / 60 mod 60)
    ++ lit ":" ++ format_0d 2 (n mod 60).
Proof.
  intros Hn. unfold Timedelta.to_str, from_seconds.
  cbn [days seconds microseconds].
  rewrite (Z.div_small n 86400), (Z.mod_small n 86400) by lia.
  reflexivity.
Qed.

Lemma hms_of_seconds n :
  (0 <= n < 86400)%Z ->
  (0 <= n / 60 / 60 < 24 /\ 0 <= n / 60 mod 60 < 60 /\ 0 <= n mod 60 < 60
   /\ n / 60 / 60 * 3600 + n / 60 mod 60 * 60 + n mod 60 = n)%Z.
Proof.
  intros Hn.
  pose proof (Z.div_mod n 60 ltac:(discriminate)) as E1.
  pose proof (Z.mod_pos_bound n 60 ltac:(reflexivity)) as B1.
  remember (n / 60)%Z as q. remember (n mod 60)%Z as r.
  pose proof (Z.div_mod q 60 ltac:(discriminate)) as E2.
  pose proof (Z.mod_pos_bound q 60 ltac:(reflexivity)) as B2.
  remember (q / 60)%Z as q2. remember (q mod 60)%Z as r2.
  lia.
Qed.

Lemma parse_hms_to_str n :
  (0 <= n < 86400)%Z ->
  spec_parse_hms (Timedelta.to_str (from_seconds n)) = Some n.
Proof.
  intros Hn. rewrite to_str_below_a_day by exact Hn.
  destruct (hms_of_seconds Hn) as [Bh [Bm [Bs E]]].
  unfold format_d. rewrite !format_0d_nonneg by lia.
  change (lit ":") with [58%N]. unfold spec_parse_hms.
  cbn [app]. rewrite split_on_app by apply padded_no_colon.
  rewrite split_on_app by apply padded_no_colon.
  rewrite split_on_field by apply padded_no_colon.
  assert (Hsmall : forall z, (0 <= z < 60)%Z -> (Z.to_N z < 2 ^ 47)%N).
  { intros z Hz. change (2 ^ 47)%N with 140737488355328%N. lia. }
  rewrite !int_padded by (first [apply Hsmall; lia | lia]).
  rewrite !Z2N.id by lia. f_equal. exact E.
Qed.

(** C8, as amended.  For every source duration string of the simplified
    grammar (integers written with at most 4300 digits, leading zeros
    included) that amounts to less than 24 hours, parsing it, rendering the
    resulting duration the way the renderer does, with [str], and reading
    that field back as [H:MM:SS] recovers the total number of seconds of the
    source string. *)
Theorem duration_round_trip :
  forall ttl pre h m s,
    Forall (fun c => Py_UNICODE_ISDECIMAL c = false) pre ->
    numeral h -> numeral m -> numeral s ->
    (numeral_amount h * 3600 + numeral_amount m * 60 + numeral_amount s
     < 86400)%Z ->
    exists t,
      _extract_duration (video ttl (grammar_string pre h m s)) = Ok t
      /\ spec_parse_hms (Timedelta.to_str t)
         = Some (numeral_amount h * 3600 + numeral_amount m * 60
                 + numeral_amount s)%Z
      /\ forall ttl' u,
          markdown_row {| title := ttl'; url := u; duration := t |}
          = lit "| [" ++ ttl' ++ lit "](" ++ u ++ lit ") | "
            ++ Timedelta.to_str t ++ lit " |" ++ [10%N].
Proof.
  intros ttl pre h m s Hpre Hh Hm Hs Hday.
  pose proof (@numeral_amount_nonneg h Hh).
  pose proof (@numeral_amount_nonneg m Hm).
  pose proof (@numeral_amount_nonneg s Hs).
  exists (from_seconds (numeral_amount h * 3600 + numeral_amount m * 60
                        + numeral_amount s)).
  split; [|split; [|reflexivity]].
  - rewrite (@extract_grammar_string ttl pre h m s Hpre Hh Hm Hs).
    replace (numeral_amount h * 3600 + numeral_amount m * 60
             + numeral_amount s <=? max_seconds)%Z with true;
      [reflexivity|].
    symmetry. apply Z.leb_le. unfold max_seconds. lia.
  - apply parse_hms_to_str. lia.
Qed.

Lemma duration_round_trip_witness :
  exists t,
    _extract_duration
      (video (lit "T1")
             (grammar_string (lit "PT") (Some (lit "01")) (Some (lit "02"))
                             (Some (lit "03"))))
    = Ok t
    /\ spec_parse_hms (Timedelta.to_str t) = Some 3723%Z
    /\ forall ttl' u,
        markdown_row {| title := ttl'; url := u; duration := t |}
        = lit "| [" ++ ttl' ++ lit "](" ++ u ++ lit ") | "
          ++ Timedelta.to_str t ++ lit " |" ++ [10%N].
Proof.
  apply (@duration_round_trip (lit "T1") (lit "PT")
           (Some (lit "01")) (Some (lit "02")) (Some (lit "03"))).
  - repeat constructor.
  - split; [discriminate|].
    split; [repeat constructor; vm_compute; discriminate|].
    apply Nat.leb_le. vm_compute. reflexivity.
  - split; [discriminate|].
    split; [repeat constructor; vm_compute; discriminate|].
    apply Nat.leb_le. vm_compute. reflexivity.
  - split; [discriminate|].
    split; [repeat constructor; vm_compute; discriminate|].
    apply Nat.leb_le. vm_compute. reflexivity.
  - vm_compute. reflexivity.
Defined.

(** C8 as stated fails: the grammar string ["PT24H"] parses to one day,
    which is rendered as ["1 day, 0:00:00"]; read back as [H:MM:SS] this
    field does not give the 86400 seconds of the source string. *)
Lemma duration_round_trip_day :
  grammar_string (lit "PT") (Some (lit "24")) None None = lit "PT24H"
  /\ duration_string (lit "PT") (Some 24%N) None None = lit "PT24H"
  /\ _extract_duration (video [] (lit "PT24H"))
     = Ok {| days := 1; seconds := 0; microseconds := 0 |}
  /\ Timedelta.to_str {| days := 1; seconds := 0; microseconds := 0 |}
     = lit "1 day, 0:00:00"
  /\ spec_parse_hms (lit "1 day, 0:00:00") = None
  /\ ~ exists t,
         _extract_duration
           (video [] (duration_string (lit "PT") (Some 24%N) None None))
         = Ok t
         /\ spec_parse_hms (Timedelta.to_str t) = Some 86400%Z.
Proof.
  split; [vm_compute; reflexivity|].
  split; [vm_compute; reflexivity|].
  split; [vm_compute; reflexivity|].
  split; [vm_compute; reflexivity|].
  split; [vm_compute; reflexivity|].
  intros [t [E P]]. vm_compute in E. injection E as <-.
  vm_compute in P. discriminate.
Qed.


(** * Further properties of [main.py] *)

(** ** [_extract_duration] *)

Lemma group_or_zero_value m v :
  group_or_zero m = Ok v -> v = group_value m /\ group_accepted m = true.
Proof.
  destruct m as [m|]; cbn [group_or_zero group_value group_accepted];
    [|intros [= <-]; now split].
  unfold int. destruct (Re.group1 m) as [|c g]; [discriminate|].
  destruct (digits_refused (length (c :: g))); [discriminate|].
  destruct (int_accum 0 (c :: g)); [|discriminate].
  intros [= <-]. now split.
Qed.

(** X1.  Whatever the duration string, a duration that the parser returns is
    a proper [timedelta] of a whole, non-negative number of seconds: the
    seconds of the three captured groups, which then do not exceed
    [timedelta.max]. *)
Theorem extract_duration_whole_seconds :
  forall item t,
    _extract_duration item = Ok t ->
    valid t
    /\ microseconds t = 0%Z
    /\ total_microseconds t
       = (1000000 * hms_seconds (Api.duration (Api.contentDetails item)))%Z
    /\ (0 <= hms_seconds (Api.duration (Api.contentDetails item))
        <= max_seconds)%Z.
Proof.
  intros [[ttl] [d]] t. cbn [Api.duration Api.contentDetails].
  change {| Api.snippet := {| Api.title := ttl |};
            Api.contentDetails := {| Api.duration := d |} |}
    with (video ttl d).
  intros E.
  assert (Hacc : groups_accepted d = true
                 /\ (0 <= hms_seconds d)%Z).
  { revert E. unfold _extract_duration, video, groups_accepted, hms_seconds.
    cbn [Api.duration Api.contentDetails].
    destruct (group_or_zero (Re.search hours_pattern d)) as [h|] eqn:Eh;
      cbn [bind]; [|discriminate].
    destruct (group_or_zero (Re.search minutes_pattern d)) as [m|] eqn:Em;
      cbn [bind]; [|discriminate].
    destruct (group_or_zero (Re.search seconds_pattern d)) as [s|] eqn:Es;
      cbn [bind]; [|discriminate].
    intros _.
    pose proof (group_or_zero_nonneg _ Eh).
    pose proof (group_or_zero_nonneg _ Em).
    pose proof (group_or_zero_nonneg _ Es).
    destruct (group_or_zero_value _ Eh) as [<- ->].
    destruct (group_or_zero_value _ Em) as [<- ->].
    destruct (group_or_zero_value _ Es) as [<- ->].
    split; [reflexivity|lia]. }
  destruct Hacc as [Hacc H0].
  rewrite (extract_duration_accepted ttl d Hacc) in E.
  destruct (hms_seconds d <=? max_seconds)%Z eqn:Hmax; [|discriminate].
  apply Z.leb_le in Hmax. injection E as <-.
  destruct (@from_seconds_valid (hms_seconds d)) as [V T]; [lia|].
  split; [exact V|]. split; [reflexivity|]. split; [rewrite T; lia|lia].
Qed.

Lemma extract_duration_whole_seconds_witness :
  valid {| days := 0; seconds := 3723; microseconds := 0 |}
  /\ microseconds {| days := 0; seconds := 3723; microseconds := 0 |} = 0%Z
  /\ total_microseconds {| days := 0; seconds := 3723; microseconds := 0 |}
     = (1000000 * hms_seconds (lit "PT1H2M3S"))%Z
  /\ (0 <= hms_seconds (lit "PT1H2M3S") <= max_seconds)%Z.
Proof.
  apply (@extract_duration_whole_seconds
           (video (lit "T1") (lit "PT1H2M3S"))
           {| days := 0; seconds := 3723; microseconds := 0 |}).
  vm_compute. reflexivity.
Defined.

(** The parser reads nothing of a string but the three captured groups. *)
Lemma extract_duration_found ttl1 ttl2 d1 d2 :
  found hours_pattern d1 = found hours_pattern d2 ->
  found minutes_pattern d1 = found minutes_pattern d2 ->
  found seconds_pattern d1 = found seconds_pattern d2 ->
  _extract_duration (video ttl1 d1) = _extract_duration (video ttl2 d2).
Proof.
  intros Hh Hm Hs. unfold _extract_duration, video.
  cbn [Api.duration Api.contentDetails].
  now rewrite !group_or_zero_found, Hh, Hm, Hs.
Qed.

(** X2.  The day count of an ISO-8601 duration is not read: a string
    [P<n>DT...] is parsed like the string [PT...] without the days, whatever
    the number of days. *)
Theorem extract_duration_ignores_days :
  forall ttl n h m s,
    _extract_duration
      (video ttl (lit "P" ++ digits n ++ lit "D"
                  ++ duration_string (lit "T") h m s))
    = _extract_duration (video ttl (duration_string (lit "PT") h m s)).
Proof.
  intros ttl n h m s.
  assert (HT : Forall (fun c => Py_UNICODE_ISDECIMAL c = false) (lit "T"))
    by (repeat constructor).
  assert (HPT : Forall (fun c => Py_UNICODE_ISDECIMAL c = false) (lit "PT"))
    by (repeat constructor).
  destruct (found_duration_string h m s HT) as [Th [Tm Ts]].
  destruct (found_duration_string h m s HPT) as [Ph [Pm Ps]].
  change (lit "P") with [80%N]. change (lit "D") with [68%N].
  cbn [app].
  apply extract_duration_found;
    rewrite found_cons_other by reflexivity;
    rewrite found_other
      by (first [reflexivity | apply digits_decimal | cbn; discriminate]);
    congruence.
Qed.

(** X3.  A fractional number of seconds is read as its fraction digits: in
    [<a>.<b>S], whatever digits [a] and [b] are made of (leading zeros
    included, [b] of at most 4300 digits), the pattern of the seconds
    captures [b] alone, so that the string parses to the number that [b]
    denotes, in seconds. *)
Theorem extract_duration_fraction :
  forall ttl pre a b,
    Forall (fun c => Py_UNICODE_ISDECIMAL c = false) pre ->
    Forall ascii_digit a ->
    numeral (Some b) ->
    (decimal_value b <= max_seconds)%Z ->
    _extract_duration (video ttl (pre ++ a ++ lit "." ++ b ++ lit "S"))
    = Ok (from_seconds (decimal_value b)).
Proof.
  intros ttl pre a b Hpre Ha Hb Hmax.
  destruct (numeral_group Hb) as [Nb Db].
  pose proof (ascii_digits_decimal Ha) as Da.
  pose proof (@numeral_amount_nonneg (Some b) Hb) as H0.
  cbn [numeral_amount] in H0.
  change (lit ".") with [46%N]. change (lit "S") with [83%N]. cbn [app].
  match goal with
  | |- _extract_duration (video _ ?x) = _ => remember x as d eqn:Ed
  end.
  assert (Fh : found hours_pattern d = None)
    by (subst d; rewrite found_skip by exact Hpre; now find_numeral).
  assert (Fm : found minutes_pattern d = None)
    by (subst d; rewrite found_skip by exact Hpre; now find_numeral).
  assert (Fs : found seconds_pattern d = Some b)
    by (subst d; rewrite found_skip by exact Hpre; now find_numeral).
  clear Ed. unfold _extract_duration, video.
  cbn [Api.duration Api.contentDetails].
  rewrite !group_or_zero_found, Fh, Fm, Fs. cbn [bind].
  rewrite (int_numeral Hb). cbn [bind].
  rewrite new_hms by lia.
  replace (3600 * 0 + 60 * 0 + decimal_value b)%Z with (decimal_value b)
    by lia.
  apply Z.leb_le in Hmax. now rewrite Hmax.
Qed.

Lemma extract_duration_fraction_witness :
  _extract_duration (video [] (lit "PT1.05S"))
  = Ok {| days := 0; seconds := 5; microseconds := 0 |}.
Proof.
  apply (@extract_duration_fraction [] (lit "PT") (lit "1") (lit "05")).
  - repeat constructor.
  - repeat constructor; vm_compute; discriminate.
  - split; [discriminate|].
    split; [repeat constructor; vm_compute; discriminate|].
    apply Nat.leb_le. vm_compute. reflexivity.
  - vm_compute. discriminate.
Defined.

Lemma search_without_designator p s :
  ~ In (Re.designator p) s -> Re.search p s = None.
Proof.
  intros Hnot. destruct (Re.search p s) as [m|] eqn:E; [|reflexivity].
  destruct (@search_from_sound p s 0%nat m E)
    as [pos [_ [_ [_ [pre [post [-> _]]]]]]].
  exfalso. apply Hnot. apply in_or_app. right.
  apply in_or_app. right. now left.
Qed.

(** X17.  The designators are the capital letters only: a string without
    [H], [M] and [S] parses to the zero duration, whatever digits and other
    letters it holds. *)
Theorem extract_duration_no_designator :
  forall ttl d,
    ~ In 72%N d -> ~ In 77%N d -> ~ In 83%N d ->
    _extract_duration (video ttl d)
    = Ok {| days := 0; seconds := 0; microseconds := 0 |}.
Proof.
  intros ttl d Hh Hm Hs. unfold _extract_duration, video.
  cbn [Api.duration Api.contentDetails].
  rewrite (@search_without_designator hours_pattern d) by exact Hh.
  rewrite (@search_without_designator minutes_pattern d) by exact Hm.
  rewrite (@search_without_designator seconds_pattern d) by exact Hs.
  reflexivity.
Qed.

Lemma extract_duration_no_designator_witness :
  _extract_duration (video [] (lit "pt1h2m3s"))
  = Ok {| days := 0; seconds := 0; microseconds := 0 |}.
Proof.
  apply extract_duration_no_designator;
    cbn; intros Hin; repeat (destruct Hin as [Hin|Hin]; [discriminate|]);
    exact Hin.
Defined.

(** ** [get_total_duration] *)

Lemma sum_out_of_range xs : forall start,
  Forall (fun x => 0 <= total_microseconds x)%Z xs ->
  (0 <= total_microseconds start <= max_microseconds)%Z ->
  (max_microseconds < total_microseconds start + sum_microseconds xs)%Z ->
  Timedelta.sum xs start = Raise OverflowError.
Proof.
  induction xs as [|x xs IH]; intros start Hxs Hstart Hover;
    cbn [Timedelta.sum sum_microseconds fold_right] in *; [lia|].
  fold (sum_microseconds xs) in Hover.
  inversion Hxs as [|? ? Hx Hxs']; subst.
  destruct (Z_le_gt_dec (total_microseconds start + total_microseconds x)
                        max_microseconds) as [Hin|Hout].
  - destruct (@add_in_range start x) as [r Hr];
      [unfold min_microseconds; lia|].
    rewrite Hr. cbn [bind]. destruct (add_spec _ _ Hr) as [Tr _].
    apply IH; [exact Hxs'|lia|lia].
  - unfold add. rewrite normalize_out_of_range; [reflexivity|].
    unfold total_microseconds in Hout. right. lia.
Qed.

Lemma total_out_of_range items :
  Forall (fun i => 0 <= total_microseconds (duration i))%Z items ->
  (max_microseconds < sum_microseconds (map duration items))%Z ->
  get_total_duration items = Raise OverflowError.
Proof.
  intros Hitems Hover. unfold get_total_duration.
  change (Timedelta.new 0 0 0 0 0 0 0)
    with (Ok {| days := 0; seconds := 0; microseconds := 0 |}).
  cbn [bind]. apply sum_out_of_range.
  - now apply Forall_map.
  - unfold max_microseconds. cbn. lia.
  - cbn. exact Hover.
Qed.

(** X4.  On items with non-negative durations whose sum exceeds
    [timedelta.max], [get_total_duration] returns nothing: it raises
    [OverflowError]. *)
Theorem get_total_duration_out_of_range :
  forall items,
    Forall (fun i => 0 <= total_microseconds (duration i))%Z items ->
    (max_microseconds < sum_microseconds (map duration items))%Z ->
    get_total_duration items = Raise OverflowError.
Proof. exact total_out_of_range. Qed.

Lemma get_total_duration_out_of_range_witness :
  get_total_duration
    [{| title := lit "T1"; url := lit "u1";
        duration := {| days := 600000000; seconds := 0;
                       microseconds := 0 |} |};
     {| title := lit "T2"; url := lit "u2";
        duration := {| days := 600000000; seconds := 0;
                       microseconds := 0 |} |}]
  = Raise OverflowError.
Proof.
  apply get_total_duration_out_of_range.
  - repeat constructor; vm_compute; discriminate.
  - vm_compute. reflexivity.
Defined.

Lemma sum_microseconds_permutation xs ys :
  Permutation xs ys -> sum_microseconds xs = sum_microseconds ys.
Proof.
  induction 1 as [|x xs ys _ IH|x y xs|xs ys zs _ IH1 _ IH2];
    cbn [sum_microseconds fold_right].
  - reflexivity.
  - fold (sum_microseconds xs). fold (sum_microseconds ys). lia.
  - fold (sum_microseconds xs). lia.
  - congruence.
Qed.

(** X5.  The total does not depend on the order of the items: two
    sequences of items with non-negative durations that are permutations of
    each other have the same total, or raise [OverflowError] both. *)
Theorem get_total_duration_permutation :
  forall items items',
    Permutation items items' ->
    Forall (fun i => 0 <= total_microseconds (duration i))%Z items ->
    get_total_duration items = get_total_duration items'.
Proof.
  intros items items' Hperm Hitems.
  assert (Hitems' : Forall (fun i => 0 <= total_microseconds (duration i))%Z
                           items').
  { apply Forall_forall. intros i Hi.
    apply (proj1 (Forall_forall _ _) Hitems).
    now apply (Permutation_in i (Permutation_sym Hperm)). }
  pose proof (sum_microseconds_permutation
                (Permutation_map duration Hperm)) as Hsum.
  destruct (Z_le_gt_dec (sum_microseconds (map duration items))
                        max_microseconds) as [Hin|Hout].
  - destruct (get_total_duration_in_range Hitems Hin) as [t [Et [Tt Vt]]].
    rewrite Hsum in Hin.
    destruct (get_total_duration_in_range Hitems' Hin) as [t' [Et' [Tt' Vt']]].
    rewrite Et, Et'. f_equal. apply valid_unique; [exact Vt|exact Vt'|].
    congruence.
  - rewrite (total_out_of_range Hitems) by lia.
    rewrite Hsum in Hout.
    now rewrite (total_out_of_range Hitems') by lia.
Qed.

Lemma get_total_duration_permutation_witness :
  get_total_duration
    [{| title := lit "T1"; url := lit "u1";
        duration := {| days := 0; seconds := 3600; microseconds := 0 |} |};
     {| title := lit "T2"; url := lit "u2";
        duration := {| days := 0; seconds := 45; microseconds := 0 |} |}]
  = get_total_duration
      [{| title := lit "T2"; url := lit "u2";
          duration := {| days := 0; seconds := 45; microseconds := 0 |} |};
       {| title := lit "T1"; url := lit "u1";
          duration := {| days := 0; seconds := 3600;
                         microseconds := 0 |} |}].
Proof.
  apply get_total_duration_permutation.
  - apply perm_swap.
  - repeat constructor; vm_compute; discriminate.
Defined.

(** ** The assembly step *)

(** X6.  Detail records and ids without a partner are dropped without any
    error: details after the last id are not even parsed, and ids after the
    last detail record produce no item. *)
Theorem assemble_drops_unpaired :
  forall details ids more_details more_ids,
    length details = length ids ->
    assemble (details ++ more_details) ids = assemble details ids
    /\ assemble details (ids ++ more_ids) = assemble details ids.
Proof.
  intros details ids more_details more_ids Hlen. unfold assemble. split.
  - rewrite combine_firstn_r. rewrite <- Hlen.
    rewrite firstn_app, firstn_all, Nat.sub_diag. cbn [firstn].
    now rewrite app_nil_r.
  - rewrite combine_firstn_l. rewrite Hlen.
    rewrite firstn_app, firstn_all, Nat.sub_diag. cbn [firstn].
    now rewrite app_nil_r.
Qed.

Lemma assemble_drops_unpaired_witness :
  assemble ([video (lit "T1") (lit "PT1H")]
            ++ [video (lit "T2") (lit "PT24000000000H")])
           [lit "v1"]
  = assemble [video (lit "T1") (lit "PT1H")] [lit "v1"]
  /\ assemble [video (lit "T1") (lit "PT1H")] ([lit "v1"] ++ [lit "v2"])
     = assemble [video (lit "T1") (lit "PT1H")] [lit "v1"].
Proof.
  apply (@assemble_drops_unpaired [video (lit "T1") (lit "PT1H")] [lit "v1"]).
  reflexivity.
Defined.

(** X7.  The assembly step fails exactly when the duration of a paired
    detail record does not parse: it raises the exception of the first such
    record, in the order of the sequence, whatever comes after it. *)
Theorem assemble_first_failure :
  forall details ids e,
    assemble details ids = Raise e
    <-> exists i d,
        nth_error details i = Some d
        /\ (i < length ids)%nat
        /\ _extract_duration d = Raise e
        /\ forall j d', (j < i)%nat -> nth_error details j = Some d' ->
                        exists t, _extract_duration d' = Ok t.
Proof.
  unfold assemble. induction details as [|d0 details IH]; intros ids e.
  - cbn [combine create_items]. split; [discriminate|].
    intros [[|i] [d [Hd _]]]; discriminate.
  - destruct ids as [|id0 ids].
    + cbn [combine create_items]. split; [discriminate|].
      intros [i [d [_ [Hi _]]]]. cbn in Hi. lia.
    + cbn [combine create_items]. unfold create_item at 1.
      destruct (_extract_duration d0) as [t0|e0] eqn:E0; cbn [bind].
      * destruct (create_items (combine details ids)) as [rest|e1] eqn:Erest;
          cbn [bind].
        -- split; [discriminate|].
           intros [[|i] [d [Hd [Hi [Hr Hbefore]]]]]; cbn [nth_error] in Hd.
           ++ congruence.
           ++ assert (He : create_items (combine details ids) = Raise e);
                [|congruence].
              apply IH. exists i, d. split; [exact Hd|].
              split; [cbn in Hi; lia|]. split; [exact Hr|].
              intros j d' Hj Hd'. apply (Hbefore (S j) d'); [lia|exact Hd'].
        -- split.
           ++ intros [= <-]. apply IH in Erest.
              destruct Erest as [i [d [Hd [Hi [Hr Hbefore]]]]].
              exists (S i), d. split; [exact Hd|].
              split; [cbn; lia|]. split; [exact Hr|].
              intros [|j] d' Hj Hd'; cbn [nth_error] in Hd'.
              ** injection Hd' as <-. now exists t0.
              ** apply (Hbefore j d'); [lia|exact Hd'].
           ++ intros [[|i] [d [Hd [Hi [Hr Hbefore]]]]]; cbn [nth_error] in Hd.
              ** congruence.
              ** assert (He : create_items (combine details ids) = Raise e);
                   [|congruence].
                 apply IH. exists i, d. split; [exact Hd|].
                 split; [cbn in Hi; lia|]. split; [exact Hr|].
                 intros j d' Hj Hd'.
                 apply (Hbefore (S j) d'); [lia|exact Hd'].
      * split.
        -- intros [= <-]. exists 0%nat, d0. split; [reflexivity|].
           split; [cbn; lia|]. split; [exact E0|]. intros j d' Hj. lia.
        -- intros [[|i] [d [Hd [Hi [Hr Hbefore]]]]]; cbn [nth_error] in Hd.
           ++ congruence.
           ++ destruct (Hbefore 0%nat d0) as [t Ht]; [lia|reflexivity|].
              congruence.
Qed.

Lemma assemble_first_failure_witness :
  assemble [video (lit "T1") (lit "PT1H");
            video (lit "T2") (lit "PT24000000000H");
            video (lit "T3") (lit "PT2H")]
           [lit "v1"; lit "v2"; lit "v3"]
  = Raise OverflowError.
Proof.
  apply (proj2 (assemble_first_failure _ _ _)).
  exists 1%nat, (video (lit "T2") (lit "PT24000000000H")).
  split; [reflexivity|]. split; [cbn; lia|].
  split; [vm_compute; reflexivity|].
  intros [|j] d' Hj Hd'; [|lia].
  injection Hd' as <-. eexists. vm_compute. reflexivity.
Defined.

(** ** [get_video_ids] *)

Lemma get_video_ids_loop_fails (H : Type) (HH : Api.Handler H)
    (playlist_id : str) (h : H) token pages e :
  fails_after playlist_id h token pages e ->
  forall fuel video_ids,
    (length pages < fuel)%nat ->
    get_video_ids_loop fuel h playlist_id video_ids token = Some (Raise e).
Proof.
  induction 1 as [h token e Hex|h token pg h' pages e Hex Htok Hrest IH];
    intros fuel video_ids Hfuel;
    (destruct fuel as [|fuel]; [cbn in Hfuel; lia|]);
    cbn [get_video_ids_loop]; fold (page_request playlist_id token);
    rewrite Hex; [reflexivity|].
  rewrite Htok. cbn [negb]. apply IH. cbn in Hfuel. lia.
Qed.

(** X8.  A failing request aborts [get_video_ids]: when the remote side
    delivers some pages and then fails a request, the exception of that
    request is what [get_video_ids] raises, and the ids of the pages
    delivered before are lost. *)
Theorem get_video_ids_aborts :
  forall (H : Type) (HH : Api.Handler H) (playlist_id : str) (handler : H)
         (pages : list Api.PlaylistItemsResponse) (e : exn),
    fails_after playlist_id handler None pages e ->
    forall fuel, (length pages < fuel)%nat ->
                 get_video_ids fuel handler playlist_id = Some (Raise e).
Proof.
  intros H HH playlist_id handler pages e Hf fuel Hfuel.
  exact (get_video_ids_loop_fails Hf _ Hfuel).
Qed.

Lemma get_video_ids_aborts_witness :
  get_video_ids 2
    {| pages_left := [page ["v1"; "v2"]%string (Some "CAIQAA"%string)];
       catalogue := scenario_videos; requests_seen := [] |}
    (lit "PL1")
  = Some (Raise HttpError).
Proof.
  apply (@get_video_ids_aborts _ _ (lit "PL1") _
           [page ["v1"; "v2"]%string (Some "CAIQAA"%string)] HttpError).
  - eapply fails_later; [reflexivity|reflexivity|].
    apply fails_now. reflexivity.
  - cbn. lia.
Defined.

(** X9.  Nothing bounds the number of pages: against a remote side that
    answers every request with a page carrying a continuation token,
    [get_video_ids] has not finished after any number of requests. *)
Theorem get_video_ids_endless :
  forall (H : Type) (HH : Api.Handler H) (playlist_id : str)
         (never_last : H -> Prop) (handler : H),
    never_last handler ->
    (forall h request,
        never_last h ->
        exists page h',
          Api.playlistItems_list_execute h request = Ok (page, h')
          /\ truthy (Api.nextPageToken page) = true
          /\ never_last h') ->
    forall fuel, get_video_ids fuel handler playlist_id = None.
Proof.
  intros H HH playlist_id never_last handler Hh Hstep fuel.
  unfold get_video_ids.
  generalize (@nil str) as video_ids. generalize (@None str) as token.
  revert handler Hh.
  induction fuel as [|fuel IH]; intros handler Hh token video_ids;
    cbn [get_video_ids_loop]; [reflexivity|].
  destruct (Hstep handler
              {| Api.pl_part := lit "contentDetails";
                 Api.playlistId := playlist_id;
                 Api.maxResults := 50;
                 Api.pageToken := token |} Hh)
    as [pg [h' [Hex [Htok Hh']]]].
  rewrite Hex, Htok. cbn [negb]. now apply IH.
Qed.

Lemma get_video_ids_endless_witness :
  get_video_ids 1000
    {| repeated := page ["v1"]%string (Some "CAIQAA"%string) |} (lit "PL1")
  = None.
Proof.
  apply (@get_video_ids_endless _ _ (lit "PL1")
           (fun h => truthy (Api.nextPageToken (repeated h)) = true)).
  - reflexivity.
  - intros h request Hh. exists (repeated h), h.
    split; [reflexivity|]. split; exact Hh.
Defined.

(** X10.  A page whose continuation token is the empty string ends the
    fetch like a page without token: its ids are the last ones returned and
    no further request is made. *)
Theorem get_video_ids_empty_token :
  forall (H : Type) (HH : Api.Handler H) (playlist_id : str)
         (handler handler' : H) (first : Api.PlaylistItemsResponse)
         (fuel : nat),
    Api.playlistItems_list_execute handler (page_request playlist_id None)
    = Ok (first, handler') ->
    Api.nextPageToken first = Some [] ->
    get_video_ids (S fuel) handler playlist_id
    = Some (Ok (page_ids first, handler')).
Proof.
  intros H HH playlist_id handler handler' first fuel Hex Htok.
  unfold get_video_ids. cbn [get_video_ids_loop].
  fold (page_request playlist_id None). rewrite Hex, Htok.
  reflexivity.
Qed.

Lemma get_video_ids_empty_token_witness :
  get_video_ids 5
    {| pages_left := [page ["v1"; "v2"]%string (Some ""%string);
                      page ["v3"]%string None];
       catalogue := scenario_videos; requests_seen := [] |}
    (lit "PL1")
  = Some (Ok ([lit "v1"; lit "v2"],
              {| pages_left := [page ["v3"]%string None];
                 catalogue := scenario_videos;
                 requests_seen := [page_request (lit "PL1") None] |})).
Proof.
  apply (@get_video_ids_empty_token _ _ (lit "PL1")
           {| pages_left := [page ["v1"; "v2"]%string (Some ""%string);
                             page ["v3"]%string None];
              catalogue := scenario_videos; requests_seen := [] |}
           {| pages_left := [page ["v3"]%string None];
              catalogue := scenario_videos;
              requests_seen := [page_request (lit "PL1") None] |}
           (page ["v1"; "v2"]%string (Some ""%string)) 4%nat).
  - reflexivity.
  - reflexivity.
Defined.

(** ** [main] *)

(** X11.  [main] end to end, against any remote side: it fetches the pages
    of the playlist one by one, then sends one single [videos] request for
    all the ids, joined by commas, whatever their number, assembles the
    answer with the ids, appends the total if asked to, and prints the
    result. *)
Theorem main_end_to_end :
  forall (H : Type) (HH : Api.Handler H) (args : Args)
         (handler after_pages after_videos : H)
         (pages : list Api.PlaylistItemsResponse)
         (response : Api.VideosResponse) (items rows : list Item)
         (fuel : nat),
    serves (playlist args) handler None pages after_pages ->
    Api.videos_list_execute after_pages
      {| Api.v_part := lit "snippet,contentDetails";
         Api.id := join (lit ",") (concat (map page_ids pages)) |}
    = Ok (response, after_videos) ->
    assemble (Api.v_items response) (concat (map page_ids pages))
    = Ok items ->
    append_total (include_total_duration args) items = Ok rows ->
    (length pages <= fuel)%nat ->
    main fuel args handler
    = Some (Ok (print_items (format args) rows [], after_videos)).
Proof.
  intros H HH args handler after_pages after_videos pages response items
         rows fuel Hs Hv Ha Ht Hfuel.
  unfold main, get_video_ids.
  rewrite (get_video_ids_loop_serves Hs) by exact Hfuel.
  cbn [app]. unfold get_video_details. rewrite Hv. cbn [bind fst snd].
  rewrite Ha. cbn [bind]. rewrite Ht. reflexivity.
Qed.

Lemma main_end_to_end_witness :
  main 2 (scenario_args "csv" true) scenario_remote
  = Some (Ok (print_items (lit "csv")
                [{| title := lit "T1";
                    url := lit "https://www.youtube.com/watch?v=v1";
                    duration := {| days := 0; seconds := 3600;
                                   microseconds := 0 |} |};
                 {| title := lit "T2";
                    url := lit "https://www.youtube.com/watch?v=v2";
                    duration := {| days := 0; seconds := 1800;
                                   microseconds := 0 |} |};
                 {| title := lit "T3";
                    url := lit "https://www.youtube.com/watch?v=v3";
                    duration := {| days := 0; seconds := 45;
                                   microseconds := 0 |} |};
                 {| title := lit "Total Duration"; url := [];
                    duration := {| days := 0; seconds := 5445;
                                   microseconds := 0 |} |}] [],
              scenario_remote_after)).
Proof.
  apply (@main_end_to_end _ _ (scenario_args "csv" true) scenario_remote
           scenario_remote_after scenario_remote_after scenario_pages
           {| Api.v_items := scenario_videos |}
           [{| title := lit "T1";
               url := lit "https://www.youtube.com/watch?v=v1";
               duration := {| days := 0; seconds := 3600;
                              microseconds := 0 |} |};
            {| title := lit "T2";
               url := lit "https://www.youtube.com/watch?v=v2";
               duration := {| days := 0; seconds := 1800;
                              microseconds := 0 |} |};
            {| title := lit "T3";
               url := lit "https://www.youtube.com/watch?v=v3";
               duration := {| days := 0; seconds := 45;
                              microseconds := 0 |} |}]).
  - eapply serves_next; [reflexivity|reflexivity|].
    eapply serves_last; reflexivity.
  - reflexivity.
  - vm_compute. reflexivity.
  - vm_compute. reflexivity.
  - cbn. lia.
Defined.

(** X12.  [main] stops at the first failure and prints nothing: a failing
    page request, a failing [videos] request, a duration that does not
    parse and a total out of range each make it raise that exception. *)
Theorem main_aborts :
  forall (H : Type) (HH : Api.Handler H) (args : Args) (handler : H)
         (e : exn),
    (forall pages fuel,
        fails_after (playlist args) handler None pages e ->
        (length pages < fuel)%nat ->
        main fuel args handler = Some (Raise e))
    /\ (forall pages after_pages fuel,
           serves (playlist args) handler None pages after_pages ->
           Api.videos_list_execute after_pages
             {| Api.v_part := lit "snippet,contentDetails";
                Api.id := join (lit ",") (concat (map page_ids pages)) |}
           = Raise e ->
           (length pages <= fuel)%nat ->
           main fuel args handler = Some (Raise e))
    /\ (forall pages after_pages response after_videos fuel,
           serves (playlist args) handler None pages after_pages ->
           Api.videos_list_execute after_pages
             {| Api.v_part := lit "snippet,contentDetails";
                Api.id := join (lit ",") (concat (map page_ids pages)) |}
           = Ok (response, after_videos) ->
           assemble (Api.v_items response) (concat (map page_ids pages))
           = Raise e ->
           (length pages <= fuel)%nat ->
           main fuel args handler = Some (Raise e))
    /\ (forall pages after_pages response after_videos items fuel,
           serves (playlist args) handler None pages after_pages ->
           Api.videos_list_execute after_pages
             {| Api.v_part := lit "snippet,contentDetails";
                Api.id := join (lit ",") (concat (map page_ids pages)) |}
           = Ok (response, after_videos) ->
           assemble (Api.v_items response) (concat (map page_ids pages))
           = Ok items ->
           append_total (include_total_duration args) items = Raise e ->
           (length pages <= fuel)%nat ->
           main fuel args handler = Some (Raise e)).
Proof.
  intros H HH args handler e. split; [|split; [|split]].
  - intros pages fuel Hf Hfuel. unfold main, get_video_ids.
    now rewrite (get_video_ids_loop_fails Hf _ Hfuel).
  - intros pages after_pages fuel Hs Hv Hfuel. unfold main, get_video_ids.
    rewrite (get_video_ids_loop_serves Hs) by exact Hfuel.
    cbn [app]. unfold get_video_details. now rewrite Hv.
  - intros pages after_pages response after_videos fuel Hs Hv Ha Hfuel.
    unfold main, get_video_ids.
    rewrite (get_video_ids_loop_serves Hs) by exact Hfuel.
    cbn [app]. unfold get_video_details. rewrite Hv. cbn [bind fst snd].
    now rewrite Ha.
  - intros pages after_pages response after_videos items fuel Hs Hv Ha Ht
           Hfuel.
    unfold main, get_video_ids.
    rewrite (get_video_ids_loop_serves Hs) by exact Hfuel.
    cbn [app]. unfold get_video_details. rewrite Hv. cbn [bind fst snd].
    rewrite Ha. cbn [bind]. now rewrite Ht.
Qed.

Lemma main_aborts_witness :
  main 1 (scenario_args "md" false)
       {| pages_left := []; catalogue := scenario_videos;
          requests_seen := [] |}
  = Some (Raise HttpError).
Proof.
  apply (proj1 (@main_aborts _ _ (scenario_args "md" false)
                  {| pages_left := []; catalogue := scenario_videos;
                     requests_seen := [] |} HttpError) [] 1%nat).
  - apply fails_now. reflexivity.
  - cbn. lia.
Defined.

(** ** Printing *)

Lemma str_eqb_neq a b : a <> b -> str_eqb a b = false.
Proof.
  intros Hne. unfold str_eqb.
  now destruct (list_eq_dec N.eq_dec a b).
Qed.

(** X13.  [main] has no branch for a format other than [md] and [csv]:
    for such a format nothing is printed, and nothing is reported
    either. *)
Theorem print_items_other_format :
  forall fmt items stdout,
    fmt <> lit "md" -> fmt <> lit "csv" ->
    print_items fmt items stdout = stdout.
Proof.
  intros fmt items stdout Hmd Hcsv. unfold print_items.
  now rewrite (str_eqb_neq Hmd), (str_eqb_neq Hcsv).
Qed.

Lemma print_items_other_format_witness :
  print_items (lit "json")
              [{| title := lit "T1"; url := lit "u1";
                  duration := {| days := 0; seconds := 60;
                                 microseconds := 0 |} |}] []
  = [].
Proof.
  apply print_items_other_format; discriminate.
Defined.

Lemma newlines_app a b : newlines (a ++ b) = (newlines a + newlines b)%nat.
Proof. apply count_occ_app. Qed.

Lemma newlines_one_line s : one_line s -> newlines s = 0%nat.
Proof.
  intros Hs. apply count_occ_not_In. intros Hin.
  exact (proj1 (Forall_forall _ _) Hs _ Hin eq_refl).
Qed.

Lemma one_line_app a b : one_line a -> one_line b -> one_line (a ++ b).
Proof. intros Ha Hb. apply Forall_app. now split. Qed.

Lemma digits_one_line n : one_line (digits n).
Proof.
  eapply Forall_impl; [|apply digits_ascii].
  unfold ascii_digit. intros c Hc. lia.
Qed.

Lemma format_0d_one_line width z : one_line (format_0d width z).
Proof.
  assert (Hfill : forall w n, one_line (zfill w (digits n))).
  { intros w n. unfold zfill. apply one_line_app; [|apply digits_one_line].
    apply Forall_forall. intros c Hc. apply repeat_spec in Hc. now subst c. }
  unfold format_0d. destruct (z <? 0)%Z; [|apply Hfill].
  constructor; [discriminate|apply Hfill].
Qed.

(** [str] of a [timedelta] is one line of text. *)
Lemma to_str_one_line t : one_line (Timedelta.to_str t).
Proof.
  assert (Hlit : forall s, ~ In 10%N (lit s) -> one_line (lit s)).
  { intros s Hs. apply Forall_forall. intros c Hc ->. now apply Hs. }
  assert (Hhms : one_line
                   (format_d (seconds t / 60 / 60) ++ lit ":"
                    ++ format_0d 2 (seconds t / 60 mod 60) ++ lit ":"
                    ++ format_0d 2 (seconds t mod 60))).
  { unfold format_d.
    repeat (apply one_line_app;
            [first [apply format_0d_one_line
                   |repeat constructor; discriminate]|]).
    apply format_0d_one_line. }
  assert (Hdays : one_line
                    (if (days t =? 0)%Z
                     then format_d (seconds t / 60 / 60) ++ lit ":"
                          ++ format_0d 2 (seconds t / 60 mod 60) ++ lit ":"
                          ++ format_0d 2 (seconds t mod 60)
                     else format_d (days t) ++ lit " day"
                          ++ (if (Z.abs (days t) =? 1)%Z then []
                              else lit "s")
                          ++ lit ", "
                          ++ format_d (seconds t / 60 / 60) ++ lit ":"
                          ++ format_0d 2 (seconds t / 60 mod 60) ++ lit ":"
                          ++ format_0d 2 (seconds t mod 60))).
  { destruct (days t =? 0)%Z; [exact Hhms|].
    apply one_line_app; [apply format_0d_one_line|].
    apply one_line_app; [repeat constructor; discriminate|].
    apply one_line_app;
      [destruct (Z.abs (days t) =? 1)%Z; repeat constructor; discriminate|].
    apply one_line_app; [repeat constructor; discriminate|exact Hhms]. }
  unfold Timedelta.to_str. cbv zeta.
  destruct (microseconds t =? 0)%Z; [exact Hdays|].
  apply one_line_app; [exact Hdays|].
  apply one_line_app; [repeat constructor; discriminate|].
  apply format_0d_one_line.
Qed.

Lemma create_markdown_table_concat items :
  create_markdown_table items
  = lines ["| Title | Duration |"; "| :--- | :---: |"]%string
    ++ concat (map markdown_row items).
Proof.
  unfold create_markdown_table. now rewrite fold_left_append.
Qed.

Lemma newlines_rows (row : Item -> str) items :
  (forall item, In item items -> newlines (row item) = 1%nat) ->
  newlines (concat (map row items)) = length items.
Proof.
  induction items as [|item items IH]; intros Hrow;
    cbn [map concat length]; [reflexivity|].
  rewrite newlines_app, Hrow by now left.
  rewrite IH; [reflexivity|]. intros i Hi. apply Hrow. now right.
Qed.

(** X14.  When no title and no url contains a line end, the Markdown table
    has exactly two lines more than there are items: the header, the
    alignment line and one row per item. *)
Theorem markdown_table_line_count :
  forall items,
    Forall (fun item => one_line (title item) /\ one_line (url item)) items ->
    newlines (create_markdown_table items) = (2 + length items)%nat.
Proof.
  intros items Hitems. rewrite create_markdown_table_concat, newlines_app.
  f_equal. apply newlines_rows. intros item Hin.
  destruct (proj1 (Forall_forall _ _) Hitems item Hin) as [Ht Hu].
  unfold markdown_row. rewrite !newlines_app.
  rewrite (newlines_one_line Ht), (newlines_one_line Hu),
    (newlines_one_line (to_str_one_line (duration item))).
  reflexivity.
Qed.

Lemma markdown_table_line_count_witness :
  newlines (create_markdown_table
              [{| title := lit "T1"; url := lit "u1";
                  duration := {| days := 0; seconds := 60;
                                 microseconds := 0 |} |}])
  = 3%nat.
Proof.
  apply (@markdown_table_line_count
           [{| title := lit "T1"; url := lit "u1";
               duration := {| days := 0; seconds := 60;
                              microseconds := 0 |} |}]).
  repeat constructor; discriminate.
Defined.

(** X15.  When no title and no url contains a line end, the CSV output has
    exactly one line more than there are items: the header and one line per
    item. *)
Theorem csv_line_count :
  forall items,
    Forall (fun item => one_line (title item) /\ one_line (url item)) items ->
    newlines (print_items (lit "csv") items []) = (1 + length items)%nat.
Proof.
  intros items Hitems. unfold print_items.
  change (str_eqb (lit "csv") (lit "md")) with false.
  change (str_eqb (lit "csv") (lit "csv")) with true.
  cbv iota. unfold print.
  rewrite (fold_left_append (fun item => csv_row item ++ [10%N])).
  rewrite newlines_app. f_equal. apply newlines_rows. intros item Hin.
  destruct (proj1 (Forall_forall _ _) Hitems item Hin) as [Ht Hu].
  unfold csv_row. rewrite !newlines_app.
  rewrite (newlines_one_line Ht), (newlines_one_line Hu),
    (newlines_one_line (to_str_one_line (duration item))).
  reflexivity.
Qed.

Lemma csv_line_count_witness :
  newlines (print_items (lit "csv")
              [{| title := lit "A, B"; url := lit "u1";
                  duration := {| days := 0; seconds := 60;
                                 microseconds := 0 |} |}] [])
  = 2%nat.
Proof.
  apply (@csv_line_count
           [{| title := lit "A, B"; url := lit "u1";
               duration := {| days := 0; seconds := 60;
                              microseconds := 0 |} |}]).
  repeat constructor; discriminate.
Defined.

(** ** [get_video_details] *)

Lemma split_on_join ids :
  ids <> [] ->
  Forall (fun i => Forall (fun c => c <> 44%N) i) ids ->
  split_on 44%N (join [44%N] ids) = ids.
Proof.
  intros Hne Hids. induction Hids as [|i ids Hi Hids IH]; [contradiction|].
  destruct ids as [|i' ids].
  - cbn [join]. now apply split_on_field.
  - cbn [join app]. rewrite split_on_app by exact Hi.
    f_equal. apply IH. discriminate.
Qed.

(** X16.  [get_video_details] sends one single request for a list of ids,
    whatever its length, and returns the videos of the answer in the order
    of the answer; the [id] parameter of the request is the ids joined by
    commas, from which the ids are read back by splitting at the commas when
    there is an id at least and no id contains a comma. *)
Theorem get_video_details_request :
  forall videos seen ids,
    ids <> [] ->
    Forall (fun i => Forall (fun c => c <> 44%N) i) ids ->
    exists request,
      get_video_details
        {| recorded_videos := videos; recorded_requests := seen |} ids
      = Ok (videos,
            {| recorded_videos := videos;
               recorded_requests := seen ++ [request] |})
      /\ Api.v_part request = lit "snippet,contentDetails"
      /\ split_on 44%N (Api.id request) = ids.
Proof.
  intros videos seen ids Hne Hids.
  exists {| Api.v_part := lit "snippet,contentDetails";
            Api.id := join (lit ",") ids |}.
  split; [reflexivity|]. split; [reflexivity|].
  cbn [Api.id]. now apply split_on_join.
Qed.

Lemma get_video_details_request_witness :
  exists request,
    get_video_details
      {| recorded_videos := scenario_videos; recorded_requests := [] |}
      [lit "v1"; lit "v2"; lit "v3"]
    = Ok (scenario_videos,
          {| recorded_videos := scenario_videos;
             recorded_requests := [] ++ [request] |})
    /\ Api.v_part request = lit "snippet,contentDetails"
    /\ split_on 44%N (Api.id request) = [lit "v1"; lit "v2"; lit "v3"].
Proof.
  apply (@get_video_details_request scenario_videos []
           [lit "v1"; lit "v2"; lit "v3"]).
  - discriminate.
  - repeat constructor; discriminate.
Defined.
